(** * Holen: diagram store, undo history and connector routers

    A shallow embedding of the diagram store (store/diagramStore.ts), of the
    types it works on (types/diagram.ts) and of the two connector routers
    ([generateSmartPath] and [generateOrgChartPath]), followed by the
    properties of the specification stated over them.

    Conventions of the embedding.
    - A JavaScript [number] is a double ([PrimFloat.float], binary64 with
      its rounding, its two zeros and NaN) in the two routers, whose
      searches add and compare coordinates; it is an exact rational ([Q])
      in the store and in the layout service, where rounding is not
      modelled; and it is an integer ([Z]) for the history cursor, which
      only ever holds integers.
    - The graph handed to the layout engine is keyed as graphlib keeps it:
      a node id names one node, a pair of ids one edge.
    - [string | null] is [option string]; an optional field [f?: T] is
      [option T].
    - [Partial<T>] is a record of options, one per key; [None] means that the
      key is absent from the object literal.
    - [uuidv4()] is an input of the operations that create a node.
    - [JSON.parse(JSON.stringify v)] is the identity on the values stored.
    - [localStorage] is outside the store: [saveToLocalStorage] changes no
      field of it.
    - A JavaScript exception is the [Raise] outcome, which keeps the store
      as it was when the exception left the operation. *)

From Stdlib Require Import List String ZArith QArith Lia Bool Arith.
From Stdlib Require PrimFloat.
Import ListNotations.
Local Open Scope string_scope.
Local Open Scope list_scope.

(* ------------------------------------------------------------------ *)
(** ** types/diagram.ts *)

Module Types.

Inductive FontSize := fs_xs | fs_sm | fs_base | fs_lg | fs_xl.
Inductive Align := al_left | al_center | al_right.

Record TextStyle := {
  bold : bool;
  italic : bool;
  underline : bool;
  fontSize : FontSize;
  align : Align
}.

Inductive BorderWidth := bw_1 | bw_2 | bw_3 | bw_4.
Inductive BorderStyle := bs_solid | bs_dashed | bs_dotted.
Inductive BorderRadius := br_none | br_sm | br_md | br_lg | br_full.
Inductive Shadow := sh_none | sh_sm | sh_md | sh_lg.

Record BoxStyle := {
  borderWidth : BorderWidth;
  borderStyle : BorderStyle;
  borderRadius : BorderRadius;
  shadow : Shadow
}.

Record NodeStyle := {
  fill : string;
  border : string;
  textColor : string;
  badgeFill : string;
  badgeTextColor : string
}.

Record BadgeConfig := {
  offsetX : Q;
  offsetY : Q;
  badgeWidth : Q;
  badgeHeight : Q
}.

Record Position := { x : Q; y : Q }.

Record DiagramNode := {
  id : string;
  parentId : option string;
  title : string;
  subtitle : option string;
  badge : option string;
  badgeConfig : option BadgeConfig;
  style : NodeStyle;
  textStyle : option TextStyle;
  boxStyle : option BoxStyle;
  width : Q;
  height : Q;
  position : Position
}.

Inductive EdgeType := straight | smoothstep | step.

(** The declarations of [EdgeStyle] and [DEFAULT_EDGE_STYLE] are imported by
    the store from types/diagram.ts but are not part of the sources at hand:
    they are taken as parameters, through this class. *)
Class EdgeStyleDecl := {
  EdgeStyle : Type;
  DEFAULT_EDGE_STYLE : EdgeStyle
}.

Record DiagramEdge `{EdgeStyleDecl} := {
  edgeId : string;
  source : string;
  target : string;
  type : EdgeType;
  edgeStyle : option EdgeStyle
}.

Record DiagramSettings := {
  name : string;
  createdAt : string;
  updatedAt : string
}.

Record DiagramData `{EdgeStyleDecl} := {
  schemaVersion : Z;
  dataNodes : list DiagramNode;
  dataEdges : list DiagramEdge;
  settings : DiagramSettings
}.

(** COLOR_PRESETS[0].style *)
Definition DEFAULT_NODE_STYLE : NodeStyle :=
  {| fill := "#d4e8f2"; border := "#333333"; textColor := "#000000";
     badgeFill := "#c0c0c0"; badgeTextColor := "#333333" |}.

Definition DEFAULT_TEXT_STYLE : TextStyle :=
  {| bold := false; italic := false; underline := false;
     fontSize := fs_sm; align := al_center |}.

Definition DEFAULT_BOX_STYLE : BoxStyle :=
  {| borderWidth := bw_2; borderStyle := bs_solid;
     borderRadius := br_sm; shadow := sh_sm |}.

(** [Partial<DiagramNode>]: [None] is an absent key. *)
Record NodeUpdates := {
  u_id : option string;
  u_parentId : option (option string);
  u_title : option string;
  u_subtitle : option (option string);
  u_badge : option (option string);
  u_badgeConfig : option (option BadgeConfig);
  u_style : option NodeStyle;
  u_textStyle : option (option TextStyle);
  u_boxStyle : option (option BoxStyle);
  u_width : option Q;
  u_height : option Q;
  u_position : option Position
}.

(** [Partial<DiagramEdge>] *)
Record EdgeUpdates `{EdgeStyleDecl} := {
  u_edgeId : option string;
  u_source : option string;
  u_target : option string;
  u_type : option EdgeType;
  u_edgeStyle : option (option EdgeStyle)
}.

Definition override {A} (old : A) (u : option A) : A :=
  match u with Some v => v | None => old end.

(** [{ ...n, ...updates }] *)
Definition mergeNode (n : DiagramNode) (u : NodeUpdates) : DiagramNode :=
  {| id := override (id n) (u_id u);
     parentId := override (parentId n) (u_parentId u);
     title := override (title n) (u_title u);
     subtitle := override (subtitle n) (u_subtitle u);
     badge := override (badge n) (u_badge u);
     badgeConfig := override (badgeConfig n) (u_badgeConfig u);
     style := override (style n) (u_style u);
     textStyle := override (textStyle n) (u_textStyle u);
     boxStyle := override (boxStyle n) (u_boxStyle u);
     width := override (width n) (u_width u);
     height := override (height n) (u_height u);
     position := override (position n) (u_position u) |}.

(** [{ ...e, ...updates }] *)
Definition mergeEdge `{EdgeStyleDecl} (e : DiagramEdge) (u : EdgeUpdates)
  : DiagramEdge :=
  {| edgeId := override (edgeId e) (u_edgeId u);
     source := override (source e) (u_source u);
     target := override (target e) (u_target u);
     type := override (type e) (u_type u);
     edgeStyle := override (edgeStyle e) (u_edgeStyle u) |}.

(** [{ ...n, parentId: null }] *)
Definition withParentId (p : option string) (n : DiagramNode) : DiagramNode :=
  {| id := id n; parentId := p; title := title n; subtitle := subtitle n;
     badge := badge n; badgeConfig := badgeConfig n; style := style n;
     textStyle := textStyle n; boxStyle := boxStyle n; width := width n;
     height := height n; position := position n |}.

(** [{ ...n, position: p }], also the assignment [node.position = p] on a
    node that was just created. *)
Definition withPosition (p : Position) (n : DiagramNode) : DiagramNode :=
  {| id := id n; parentId := parentId n; title := title n;
     subtitle := subtitle n; badge := badge n; badgeConfig := badgeConfig n;
     style := style n; textStyle := textStyle n; boxStyle := boxStyle n;
     width := width n; height := height n; position := p |}.

End Types.

(* ------------------------------------------------------------------ *)
(** ** store/diagramStore.ts *)

Module Store.
Import Types.

Section WithEdgeStyle.
Context `{ES : EdgeStyleDecl}.

Record HistoryState := {
  h_nodes : list DiagramNode;
  h_edges : list DiagramEdge
}.

Record DiagramStore := {
  nodes : list DiagramNode;
  edges : list DiagramEdge;
  selectedNodeId : option string;
  selectedNodeIds : list string;
  selectedEdgeId : option string;
  diagramName : string;
  history : list HistoryState;
  historyIndex : Z
}.

(** The fields [set] can write, one setter each. *)
Definition set_nodes v (s : DiagramStore) : DiagramStore :=
  {| nodes := v; edges := edges s; selectedNodeId := selectedNodeId s;
     selectedNodeIds := selectedNodeIds s; selectedEdgeId := selectedEdgeId s;
     diagramName := diagramName s; history := history s;
     historyIndex := historyIndex s |}.
Definition set_edges v (s : DiagramStore) : DiagramStore :=
  {| nodes := nodes s; edges := v; selectedNodeId := selectedNodeId s;
     selectedNodeIds := selectedNodeIds s; selectedEdgeId := selectedEdgeId s;
     diagramName := diagramName s; history := history s;
     historyIndex := historyIndex s |}.
Definition set_selectedNodeId v (s : DiagramStore) : DiagramStore :=
  {| nodes := nodes s; edges := edges s; selectedNodeId := v;
     selectedNodeIds := selectedNodeIds s; selectedEdgeId := selectedEdgeId s;
     diagramName := diagramName s; history := history s;
     historyIndex := historyIndex s |}.
Definition set_selectedNodeIds v (s : DiagramStore) : DiagramStore :=
  {| nodes := nodes s; edges := edges s; selectedNodeId := selectedNodeId s;
     selectedNodeIds := v; selectedEdgeId := selectedEdgeId s;
     diagramName := diagramName s; history := history s;
     historyIndex := historyIndex s |}.
Definition set_selectedEdgeId v (s : DiagramStore) : DiagramStore :=
  {| nodes := nodes s; edges := edges s; selectedNodeId := selectedNodeId s;
     selectedNodeIds := selectedNodeIds s; selectedEdgeId := v;
     diagramName := diagramName s; history := history s;
     historyIndex := historyIndex s |}.
Definition set_diagramName v (s : DiagramStore) : DiagramStore :=
  {| nodes := nodes s; edges := edges s; selectedNodeId := selectedNodeId s;
     selectedNodeIds := selectedNodeIds s; selectedEdgeId := selectedEdgeId s;
     diagramName := v; history := history s;
     historyIndex := historyIndex s |}.
Definition set_history v (s : DiagramStore) : DiagramStore :=
  {| nodes := nodes s; edges := edges s; selectedNodeId := selectedNodeId s;
     selectedNodeIds := selectedNodeIds s; selectedEdgeId := selectedEdgeId s;
     diagramName := diagramName s; history := v;
     historyIndex := historyIndex s |}.
Definition set_historyIndex v (s : DiagramStore) : DiagramStore :=
  {| nodes := nodes s; edges := edges s; selectedNodeId := selectedNodeId s;
     selectedNodeIds := selectedNodeIds s; selectedEdgeId := selectedEdgeId s;
     diagramName := diagramName s; history := history s;
     historyIndex := v |}.

(** Exceptions an operation can leave with: a property read on [undefined]
    and the exhaustion of the call stack. *)
Inductive Exn := TypeError | RangeError.

Inductive Outcome :=
| Ok (s : DiagramStore)
| Raise (e : Exn) (s : DiagramStore).

Definition storeOf (r : Outcome) : DiagramStore :=
  match r with Ok s => s | Raise _ s => s end.

(** The store as [create] builds it. *)
Definition initialStore : DiagramStore :=
  {| nodes := []; edges := []; selectedNodeId := None; selectedNodeIds := [];
     selectedEdgeId := None; diagramName := "Untitled Diagram";
     history := []; historyIndex := (-1)%Z |}.

(** *** Helpers of the language *)

(** Truthiness of a [string | null]: [null] and the empty string are falsy. *)
Definition truthy (o : option string) : bool :=
  match o with
  | Some v => negb (v =? "")
  | None => false
  end.

(** [a.includes(v)], [set.has(v)] *)
Definition includes (a : list string) (v : string) : bool :=
  existsb (String.eqb v) a.

(** [set.add(v)] on a [Set<string>], kept in insertion order. *)
Definition setAdd (set : list string) (v : string) : list string :=
  if includes set v then set else set ++ [v].

(** [a.slice(0, e)] *)
Definition slice0 {A} (a : list A) (e : Z) : list A :=
  if (e <? 0)%Z
  then firstn (Z.to_nat (Z.max (Z.of_nat (List.length a) + e) 0)) a
  else firstn (Z.to_nat e) a.

(** [a[i]]; [None] is [undefined]. *)
Definition at_index {A} (a : list A) (i : Z) : option A :=
  if (i <? 0)%Z then None else nth_error a (Z.to_nat i).

(** [p === q] on [string | null] *)
Definition sameId (p q : option string) : bool :=
  match p, q with
  | Some a, Some b => a =? b
  | None, None => true
  | _, _ => false
  end.

(** *** Pure functions of the module *)

(** [nodes.filter(n => n.parentId !== null).map(n => ...)], the filter and
    the map in one pass: a node without a parent gives no edge. *)
Definition deriveEdges (ns : list DiagramNode) : list DiagramEdge :=
  flat_map
    (fun n =>
       match parentId n with
       | Some p =>
           [ {| edgeId := ("edge-" ++ p ++ "-" ++ id n)%string;
                source := p;
                target := id n;
                type := smoothstep;
                edgeStyle := Some DEFAULT_EDGE_STYLE |} ]
       | None => []
       end)
    ns.

(** [createNode]; [uuid] is the value [uuidv4()] returns.  The defaults of
    the parameters are written out at the call sites. *)
Definition createNode (uuid : string) (parent : option string)
    (ttl : string) (st : NodeStyle) (ts : TextStyle) (bs : BoxStyle)
  : DiagramNode :=
  {| id := uuid; parentId := parent; title := ttl;
     subtitle := Some ""; badge := Some ""; badgeConfig := None;
     style := st; textStyle := Some ts; boxStyle := Some bs;
     width := 160; height := 80;
     position := {| x := 0; y := 0 |} |}.

(** *** Computed accessors *)

Definition getNodeById (s : DiagramStore) (i : string) : option DiagramNode :=
  find (fun n => id n =? i) (nodes s).

Definition getEdgeById (s : DiagramStore) (i : string) : option DiagramEdge :=
  find (fun e => edgeId e =? i) (edges s).

Definition childrenOf (ns : list DiagramNode) (p : string)
  : list DiagramNode :=
  filter (fun n => sameId (parentId n) (Some p)) ns.

Definition getChildNodes (s : DiagramStore) (p : string) : list DiagramNode :=
  childrenOf (nodes s) p.

Definition getRootNodes (s : DiagramStore) : list DiagramNode :=
  filter (fun n => sameId (parentId n) None) (nodes s).

Definition getSelectedNodes (s : DiagramStore) : list DiagramNode :=
  filter (fun n => includes (selectedNodeIds s) (id n)) (nodes s).

(** *** Selection *)

(** [ids.length === 1 ? ids[0] : (ids.length > 0 ? ids[0] : null)] *)
Definition primaryOf (ids : list string) : option string :=
  if (List.length ids =? 1)%nat then hd_error ids
  else if (0 <? List.length ids)%nat then hd_error ids else None.

Definition setSelectedNode (i : option string) (s : DiagramStore)
  : DiagramStore :=
  set_selectedNodeIds
    (match i with
     | Some v => if truthy i then [v] else []
     | None => []
     end)
    (set_selectedNodeId i s).

Definition setSelectedNodes (ids : list string) (s : DiagramStore)
  : DiagramStore :=
  set_selectedNodeId (primaryOf ids) (set_selectedNodeIds ids s).

Definition toggleNodeSelection (i : string) (s : DiagramStore)
  : DiagramStore :=
  let isSelected := includes (selectedNodeIds s) i in
  let newIds :=
    if isSelected
    then filter (fun nid => negb (nid =? i)) (selectedNodeIds s)
    else selectedNodeIds s ++ [i] in
  set_selectedNodeId (primaryOf newIds) (set_selectedNodeIds newIds s).

Definition addToSelection (ids : list string) (s : DiagramStore)
  : DiagramStore :=
  let newIds := fold_left setAdd (selectedNodeIds s ++ ids) [] in
  set_selectedNodeId (primaryOf newIds) (set_selectedNodeIds newIds s).

Definition clearSelection (s : DiagramStore) : DiagramStore :=
  set_selectedNodeIds [] (set_selectedNodeId None s).

Definition setSelectedEdge (i : option string) (s : DiagramStore)
  : DiagramStore :=
  set_selectedNodeIds []
    (set_selectedNodeId None (set_selectedEdgeId i s)).

(** *** History *)

Definition snapshot (s : DiagramStore) : HistoryState :=
  {| h_nodes := nodes s; h_edges := edges s |}.

Definition saveToHistory (s : DiagramStore) : DiagramStore :=
  let pushed := slice0 (history s) (historyIndex s + 1) ++ [snapshot s] in
  let newHistory :=
    if (50 <? List.length pushed)%nat then tl pushed else pushed in
  set_historyIndex (Z.of_nat (List.length newHistory) - 1)
    (set_history newHistory s).

Definition undo (s : DiagramStore) : Outcome :=
  if (0 <? historyIndex s)%Z then
    match at_index (history s) (historyIndex s - 1) with
    | Some prevState =>
        Ok (set_historyIndex (historyIndex s - 1)
              (set_edges (h_edges prevState)
                 (set_nodes (h_nodes prevState) s)))
    | None => Raise TypeError s
    end
  else Ok s.

Definition redo (s : DiagramStore) : Outcome :=
  if (historyIndex s <? Z.of_nat (List.length (history s)) - 1)%Z then
    match at_index (history s) (historyIndex s + 1) with
    | Some nextState =>
        Ok (set_historyIndex (historyIndex s + 1)
              (set_edges (h_edges nextState)
                 (set_nodes (h_nodes nextState) s)))
    | None => Raise TypeError s
    end
  else Ok s.

(** *** Edits *)

Definition addRootNode (uuid : string) (s : DiagramStore) : DiagramStore :=
  let s1 := saveToHistory s in
  let node :=
    withPosition {| x := 400; y := 50 |}
      (createNode uuid None "Root Node" DEFAULT_NODE_STYLE
         DEFAULT_TEXT_STYLE DEFAULT_BOX_STYLE) in
  set_selectedNodeId (Some (id node))
    (set_edges (deriveEdges (nodes s1 ++ [node]))
       (set_nodes (nodes s1 ++ [node]) s1)).

Definition addChildNode (uuid : string) (parent_id : string)
    (s : DiagramStore) : DiagramStore :=
  let s1 := saveToHistory s in
  match getNodeById s1 parent_id with
  | None => s1
  | Some parent =>
      let node :=
        withPosition
          {| x := x (position parent); y := y (position parent) + 120 |}
          (createNode uuid (Some parent_id) "Child Node" (style parent)
             DEFAULT_TEXT_STYLE DEFAULT_BOX_STYLE) in
      set_selectedNodeId (Some (id node))
        (set_edges (deriveEdges (nodes s1 ++ [node]))
           (set_nodes (nodes s1 ++ [node]) s1))
  end.

Definition addSiblingNode (uuid : string) (sibling_id : string)
    (s : DiagramStore) : DiagramStore :=
  let s1 := saveToHistory s in
  match getNodeById s1 sibling_id with
  | None => s1
  | Some sibling =>
      let node :=
        withPosition
          {| x := x (position sibling) + 180; y := y (position sibling) |}
          (createNode uuid (parentId sibling) "Sibling Node" (style sibling)
             DEFAULT_TEXT_STYLE DEFAULT_BOX_STYLE) in
      set_selectedNodeId (Some (id node))
        (set_edges (deriveEdges (nodes s1 ++ [node]))
           (set_nodes (nodes s1 ++ [node]) s1))
  end.

Definition updateNode (i : string) (updates : NodeUpdates)
    (s : DiagramStore) : DiagramStore :=
  let s1 := saveToHistory s in
  set_nodes
    (map (fun n => if id n =? i then mergeNode n updates else n) (nodes s1))
    s1.

Definition updateSelectedNodes (updates : NodeUpdates) (s : DiagramStore)
  : DiagramStore :=
  let sel := selectedNodeIds s in
  if (List.length sel =? 0)%nat then s
  else
    let s1 := saveToHistory s in
    set_nodes
      (map (fun n => if includes sel (id n) then mergeNode n updates else n)
         (nodes s1))
      s1.

(** [collectDescendants], the closure of [deleteNode] and of
    [deleteSelectedNodes]: [nodesToDelete] is the set it fills, [ns] the
    node list [get()] returns while it runs.  [fuel] is the depth of call
    stack left; [None] is the stack running out. *)
Fixpoint collectDescendants (fuel : nat) (ns : list DiagramNode)
    (nodeId : string) (nodesToDelete : list string) : option (list string) :=
  match fuel with
  | O => None
  | S fuel' =>
      fold_left
        (fun acc child =>
           match acc with
           | Some set => collectDescendants fuel' ns (id child) set
           | None => None
           end)
        (childrenOf ns nodeId)
        (Some (setAdd nodesToDelete nodeId))
  end.

Definition deleteNode (fuel : nat) (i : string) (s : DiagramStore)
  : Outcome :=
  let s1 := saveToHistory s in
  match collectDescendants fuel (nodes s1) i [] with
  | None => Raise RangeError s1
  | Some nodesToDelete =>
      let newNodes :=
        filter (fun n => negb (includes nodesToDelete (id n))) (nodes s1) in
      Ok (set_selectedNodeIds
            (filter (fun nid => negb (includes nodesToDelete nid))
               (selectedNodeIds s1))
            (set_selectedNodeId
               (if truthy (selectedNodeId s1)
                   && match selectedNodeId s1 with
                      | Some v => includes nodesToDelete v
                      | None => false
                      end
                then None else selectedNodeId s1)
               (set_edges (deriveEdges newNodes) (set_nodes newNodes s1))))
  end.

Definition deleteSelectedNodes (fuel : nat) (s : DiagramStore) : Outcome :=
  let sel := selectedNodeIds s in
  if (List.length sel =? 0)%nat then Ok s
  else
    let s1 := saveToHistory s in
    match
      fold_left
        (fun acc i =>
           match acc with
           | Some set => collectDescendants fuel (nodes s1) i set
           | None => None
           end)
        sel (Some [])
    with
    | None => Raise RangeError s1
    | Some nodesToDelete =>
        let newNodes :=
          filter (fun n => negb (includes nodesToDelete (id n))) (nodes s1) in
        Ok (set_selectedNodeIds []
              (set_selectedNodeId None
                 (set_edges (deriveEdges newNodes) (set_nodes newNodes s1))))
    end.

Definition moveSelectedNodes (deltaX deltaY : Q) (s : DiagramStore)
  : DiagramStore :=
  let sel := selectedNodeIds s in
  if (List.length sel =? 0)%nat then s
  else
    set_nodes
      (map (fun n =>
              if includes sel (id n)
              then withPosition {| x := x (position n) + deltaX;
                                   y := y (position n) + deltaY |} n
              else n)
         (nodes s))
      s.

Definition updateEdge (i : string) (updates : EdgeUpdates)
    (s : DiagramStore) : DiagramStore :=
  let s1 := saveToHistory s in
  set_edges
    (map (fun e => if edgeId e =? i then mergeEdge e updates else e)
       (edges s1))
    s1.

Definition deleteEdge (i : string) (s : DiagramStore) : DiagramStore :=
  let s1 := saveToHistory s in
  match find (fun e => edgeId e =? i) (edges s1) with
  | None => s1
  | Some edge =>
      set_selectedEdgeId None
        (set_edges (filter (fun e => negb (edgeId e =? i)) (edges s1))
           (set_nodes
              (map (fun n =>
                      if id n =? target edge then withParentId None n else n)
                 (nodes s1))
              s1))
  end.

Record NodePosition := { p_id : string; p_x : Q; p_y : Q }.

Definition setNodePositions (positions : list NodePosition)
    (s : DiagramStore) : DiagramStore :=
  set_nodes
    (map (fun n =>
            match find (fun p => p_id p =? id n) positions with
            | Some pos => withPosition {| x := p_x pos; y := p_y pos |} n
            | None => n
            end)
       (nodes s))
    s.

Definition setDiagramName (nm : string) (s : DiagramStore) : DiagramStore :=
  set_diagramName nm s.

(** *** Persistence *)

Definition loadDiagram (data : DiagramData) (s : DiagramStore)
  : DiagramStore :=
  set_historyIndex (-1)
    (set_history []
       (set_selectedNodeId None
          (set_diagramName (name (settings data))
             (set_edges (dataEdges data)
                (set_nodes (dataNodes data) s))))).

(** [saved] is what [localStorage] holds under the key of the diagram,
    parsed; [None] when there is nothing or when it does not parse. *)
Definition loadFromLocalStorage (saved : option DiagramData)
    (s : DiagramStore) : DiagramStore :=
  match saved with
  | Some data => loadDiagram data s
  | None => s
  end.

Definition clearDiagram (s : DiagramStore) : DiagramStore :=
  {| nodes := []; edges := []; selectedNodeId := None; selectedNodeIds := [];
     selectedEdgeId := None; diagramName := "Untitled Diagram";
     history := []; historyIndex := (-1)%Z |}.

(** *** The actions of the store as a transition system *)

Inductive Action :=
| SetSelectedNode (i : option string)
| SetSelectedNodes (ids : list string)
| ToggleNodeSelection (i : string)
| AddToSelection (ids : list string)
| ClearSelection
| AddRootNode (uuid : string)
| AddChildNode (uuid : string) (parent_id : string)
| AddSiblingNode (uuid : string) (sibling_id : string)
| UpdateNode (i : string) (updates : NodeUpdates)
| UpdateSelectedNodes (updates : NodeUpdates)
| DeleteNode (i : string)
| DeleteSelectedNodes
| MoveSelectedNodes (deltaX deltaY : Q)
| SetSelectedEdge (i : option string)
| UpdateEdge (i : string) (updates : EdgeUpdates)
| DeleteEdge (i : string)
| SetNodePositions (positions : list NodePosition)
| SetDiagramName (nm : string)
| Undo
| Redo
| SaveToHistory
| LoadDiagram (data : DiagramData)
| LoadFromLocalStorage (saved : option DiagramData)
| ClearDiagram.

Definition step (fuel : nat) (a : Action) (s : DiagramStore) : Outcome :=
  match a with
  | SetSelectedNode i => Ok (setSelectedNode i s)
  | SetSelectedNodes ids => Ok (setSelectedNodes ids s)
  | ToggleNodeSelection i => Ok (toggleNodeSelection i s)
  | AddToSelection ids => Ok (addToSelection ids s)
  | ClearSelection => Ok (clearSelection s)
  | AddRootNode uuid => Ok (addRootNode uuid s)
  | AddChildNode uuid p => Ok (addChildNode uuid p s)
  | AddSiblingNode uuid p => Ok (addSiblingNode uuid p s)
  | UpdateNode i u => Ok (updateNode i u s)
  | UpdateSelectedNodes u => Ok (updateSelectedNodes u s)
  | DeleteNode i => deleteNode fuel i s
  | DeleteSelectedNodes => deleteSelectedNodes fuel s
  | MoveSelectedNodes dx dy => Ok (moveSelectedNodes dx dy s)
  | SetSelectedEdge i => Ok (setSelectedEdge i s)
  | UpdateEdge i u => Ok (updateEdge i u s)
  | DeleteEdge i => Ok (deleteEdge i s)
  | SetNodePositions ps => Ok (setNodePositions ps s)
  | SetDiagramName nm => Ok (setDiagramName nm s)
  | Undo => undo s
  | Redo => redo s
  | SaveToHistory => Ok (saveToHistory s)
  | LoadDiagram data => Ok (loadDiagram data s)
  | LoadFromLocalStorage saved => Ok (loadFromLocalStorage saved s)
  | ClearDiagram => Ok (clearDiagram s)
  end.

(** A sequence of actions, each dispatched on the store the one before left;
    an action that raises leaves the store as it was at the throw. *)
Fixpoint run (fuel : nat) (acts : list Action) (s : DiagramStore)
  : DiagramStore :=
  match acts with
  | [] => s
  | a :: rest => run fuel rest (storeOf (step fuel a s))
  end.

(** The edits that commit a history entry: every action that reaches its
    call of [saveToHistory]. *)
Definition commits (a : Action) (s : DiagramStore) : bool :=
  match a with
  | AddRootNode _ | AddChildNode _ _ | AddSiblingNode _ _ | UpdateNode _ _
  | DeleteNode _ | UpdateEdge _ _ | DeleteEdge _ | SaveToHistory => true
  | UpdateSelectedNodes _ | DeleteSelectedNodes =>
      negb (List.length (selectedNodeIds s) =? 0)%nat
  | _ => false
  end.

(** [n] times [undo] and [redo]. *)
Fixpoint undoTimes (n : nat) (s : DiagramStore) : DiagramStore :=
  match n with
  | O => s
  | S k => undoTimes k (storeOf (undo s))
  end.

Fixpoint redoTimes (n : nat) (s : DiagramStore) : DiagramStore :=
  match n with
  | O => s
  | S k => redoTimes k (storeOf (redo s))
  end.

(** *** Predicates of the specification *)

(** [b] is reached from [a] by following [parentId] links child-ward. *)
Inductive Reach (ns : list DiagramNode) : string -> string -> Prop :=
| reach_self : forall a, Reach ns a a
| reach_child : forall a c b,
    In c ns -> parentId c = Some a -> Reach ns (id c) b -> Reach ns a b.

(** No node is its own ancestor: the parent links go down along a rank. *)
Definition rankedBy (rank : string -> nat) (ns : list DiagramNode) : Prop :=
  forall n p, In n ns -> parentId n = Some p -> (rank p < rank (id n))%nat.

Definition maxRank (rank : string -> nat) (ns : list DiagramNode) : nat :=
  list_max (map (fun n => rank (id n)) ns).

Definition forestShaped (rank : string -> nat) (ns : list DiagramNode)
  : Prop :=
  NoDup (map id ns) /\ rankedBy rank ns.

(** The edges of the store are the ones derived from its nodes. *)
Definition edgesDerived (s : DiagramStore) : Prop :=
  edges s = deriveEdges (nodes s).

(** What the specification says of an edge: its id, source and target. *)
Definition edgeKey (e : DiagramEdge) : string * string * string :=
  (edgeId e, source e, target e).




(** *** More of the store: export, and the conditions the theorems use *)

(** [saveDiagram]; [created] and [updated] are the two values of
    [new Date().toISOString()]. *)
Definition saveDiagram (created updated : string) (s : DiagramStore)
  : DiagramData :=
  {| schemaVersion := 1;
     dataNodes := nodes s;
     dataEdges := edges s;
     settings := {| name := diagramName s; createdAt := created;
                    updatedAt := updated |} |}.

(** The cursor is -1 on an empty history or the index of a snapshot. *)
Definition cursorInRange (s : DiagramStore) : Prop :=
  (-1 <= historyIndex s < Z.of_nat (List.length (history s)))%Z.

(** [a] lies on a cycle of parent links: some child of [a] reaches [a]. *)
Definition onCycle (ns : list DiagramNode) (a : string) : Prop :=
  exists c, In c ns /\ parentId c = Some a /\ Reach ns (id c) a.

(** The nodes with a parent, the ones [deriveEdges] keeps. *)
Definition hasParent (n : DiagramNode) : bool :=
  match parentId n with Some _ => true | None => false end.

End WithEdgeStyle.
End Store.

(* ------------------------------------------------------------------ *)
(** ** The connector routers *)

(** What the routers read of a node of the canvas (@xyflow/react [Node]),
    and the drawing commands of the SVG path they return.  The path is kept
    as the list of its commands; printing it as text is not modelled.
    Numbers are the doubles of the language: binary64 with its rounding,
    its two zeros and NaN. *)
Module Flow.
Import PrimFloat.
Local Open Scope float_scope.

Record XYPosition := { x : float; y : float }.

Record Node := {
  id : string;
  position : XYPosition;
  measuredWidth : option float;
  measuredHeight : option float;
  width : option float;
  height : option float
}.

Inductive PathCmd :=
| MoveTo (x y : float)
| LineTo (x y : float)
| QuadTo (cx cy x y : float).

(** [a || b] on optional numbers: [undefined], [0], [-0] and [NaN] are
    falsy. *)
Definition orElse (a b : option float) : option float :=
  match a with
  | Some v => if (v =? 0) || is_nan v then b else a
  | None => b
  end.

Definition orDefault (a : option float) (d : float) : float :=
  match orElse a (Some d) with Some v => v | None => d end.

(** [Math.min] and [Math.max] of two numbers: NaN when one of them is NaN,
    and [-0] below [+0]. *)
Definition min (a b : float) : float :=
  if is_nan a || is_nan b then nan
  else if a <? b then a
  else if b <? a then b
  else if get_sign a then a else b.

Definition max (a b : float) : float :=
  if is_nan a || is_nan b then nan
  else if a <? b then b
  else if b <? a then a
  else if get_sign a then b else a.

(** [Math.abs] *)
Definition abs (a : float) : float := PrimFloat.abs a.

(** [a < b], [a > b], [a >= b], [a <= b], [a !== b] on numbers *)
Definition lt (a b : float) : bool := a <? b.
Definition gt (a b : float) : bool := b <? a.
Definition ge (a b : float) : bool := b <=? a.
Definition le (a b : float) : bool := a <=? b.
Definition neq (a b : float) : bool := negb (a =? b).

(** The values [offset] takes in
    [for (let offset = step; offset <= maxOffset; offset += step)], by the
    additions the loop makes; [fuel] bounds the number of turns. *)
Fixpoint offsetsFrom (fuel : nat) (offset step maxOffset : float)
  : list float :=
  match fuel with
  | O => []
  | S fuel' =>
      if offset <=? maxOffset
      then offset :: offsetsFrom fuel' (offset + step) step maxOffset
      else []
  end.

(** The two loops of the routers make 26 and 30 turns; 64 is room
    enough. *)
Definition offsets (step maxOffset : float) : list float :=
  offsetsFrom 64 step step maxOffset.

End Flow.

(** *** SmartEdge with [generateSmartPath] *)

Module SmartEdge.
Import PrimFloat Flow.
Local Open Scope float_scope.
#[local] Set Warnings "-inexact-float".

Record NodeBounds := {
  b_id : string;
  left : float;
  right : float;
  top : float;
  bottom : float;
  centerX : float;
  centerY : float
}.

Definition getNodeBounds (nodes : list Node) (excludeIds : list string)
  : list NodeBounds :=
  map (fun n =>
         let width := orDefault (orElse (measuredWidth n) (width n)) 180 in
         let height := orDefault (orElse (measuredHeight n) (height n)) 100 in
         {| b_id := id n;
            left := x (position n) - 5;
            right := x (position n) + width + 5;
            top := y (position n) - 5;
            bottom := y (position n) + height + 5;
            centerX := x (position n) + width / 2;
            centerY := y (position n) + height / 2 |})
    (filter (fun n => negb (Store.includes excludeIds (id n))) nodes).

Definition hLineIntersectsNodes (y x1 x2 : float) (nodes : list NodeBounds)
  : bool :=
  let minX := min x1 x2 in
  let maxX := max x1 x2 in
  existsb (fun n => ge y (top n) && le y (bottom n)
                    && ge maxX (left n) && le minX (right n)) nodes.

Definition vLineIntersectsNodes (x y1 y2 : float) (nodes : list NodeBounds)
  : bool :=
  let minY := min y1 y2 in
  let maxY := max y1 y2 in
  existsb (fun n => ge x (left n) && le x (right n)
                    && ge maxY (top n) && le minY (bottom n)) nodes.

Fixpoint findClearY_loop (offs : list float) (x1 x2 preferredY : float)
    (nodes : list NodeBounds) (searchUp searchDown : bool) : float :=
  match offs with
  | [] => preferredY
  | offset :: rest =>
      if searchUp
         && negb (hLineIntersectsNodes (preferredY - offset) x1 x2 nodes)
      then preferredY - offset
      else if searchDown
              && negb (hLineIntersectsNodes (preferredY + offset) x1 x2 nodes)
      then preferredY + offset
      else findClearY_loop rest x1 x2 preferredY nodes searchUp searchDown
  end.

Definition findClearY (x1 x2 preferredY : float) (nodes : list NodeBounds)
    (searchUp searchDown : bool) : float :=
  if negb (hLineIntersectsNodes preferredY x1 x2 nodes) then preferredY
  else findClearY_loop (offsets 15 400) x1 x2 preferredY nodes
         searchUp searchDown.

Fixpoint findClearX_loop (offs : list float) (y1 y2 preferredX : float)
    (nodes : list NodeBounds) : float :=
  match offs with
  | [] => preferredX
  | offset :: rest =>
      if negb (vLineIntersectsNodes (preferredX - offset) y1 y2 nodes)
      then preferredX - offset
      else if negb (vLineIntersectsNodes (preferredX + offset) y1 y2 nodes)
      then preferredX + offset
      else findClearX_loop rest y1 y2 preferredX nodes
  end.

Definition findClearX (y1 y2 preferredX : float) (nodes : list NodeBounds)
  : float :=
  if negb (vLineIntersectsNodes preferredX y1 y2 nodes) then preferredX
  else findClearX_loop (offsets 15 400) y1 y2 preferredX nodes.

(** The first choice for the bar: [midY] of [generateSmartPath]. *)
Definition midY (sourceY targetY : float) : float :=
  let goingDown := gt targetY sourceY in
  let gap := if goingDown then targetY - sourceY else sourceY - targetY in
  if goingDown then sourceY + min (gap * 0.3) 30
  else sourceY - min (gap * 0.3) 30.

(** The y of the horizontal bar: [clearMidY] of [generateSmartPath]. *)
Definition clearMidY (sourceX sourceY targetX targetY : float)
    (nodes : list NodeBounds) : float :=
  let goingDown := gt targetY sourceY in
  findClearY (min sourceX targetX) (max sourceX targetX)
    (midY sourceY targetY) nodes (negb goingDown) goingDown.

Definition generateSmartPath (sourceX sourceY targetX targetY : float)
    (nodes : list NodeBounds) (borderRadius : float) : list PathCmd :=
  let r := min borderRadius 8 in
  let goingDown := gt targetY sourceY in
  if lt (abs (sourceX - targetX)) 10 then
    [MoveTo sourceX sourceY; LineTo targetX targetY]
  else
    let clearMidY := clearMidY sourceX sourceY targetX targetY nodes in
    let sourceVerticalClear :=
      negb (vLineIntersectsNodes sourceX sourceY clearMidY nodes) in
    let targetVerticalClear :=
      negb (vLineIntersectsNodes targetX clearMidY targetY nodes) in
    if sourceVerticalClear && targetVerticalClear then
      let dir : float := if lt sourceX targetX then 1 else -1 in
      let vDir : float := if goingDown then 1 else -1 in
      [ MoveTo sourceX sourceY;
        LineTo sourceX (clearMidY - r * vDir);
        QuadTo sourceX clearMidY (sourceX + r * dir) clearMidY;
        LineTo (targetX - r * dir) clearMidY;
        QuadTo targetX clearMidY targetX (clearMidY + r * vDir);
        LineTo targetX targetY ]
    else
      let clearSourceX := findClearX sourceY clearMidY sourceX nodes in
      let clearTargetX := findClearX clearMidY targetY targetX nodes in
      [MoveTo sourceX sourceY]
      ++ (if neq clearSourceX sourceX
          then let exitY := sourceY + (if goingDown then 15 else -15) in
               [LineTo sourceX exitY; LineTo clearSourceX exitY]
          else [])
      ++ [LineTo clearSourceX clearMidY; LineTo clearTargetX clearMidY]
      ++ (if neq clearTargetX targetX
          then let entryY := targetY + (if goingDown then -15 else 15) in
               [LineTo clearTargetX entryY; LineTo targetX entryY]
          else [])
      ++ [LineTo targetX targetY].

(** The component: [borderRadius] is [data?.borderRadius]. *)
Definition SmartEdge (nodes : list Node) (source target : string)
    (sourceX sourceY targetX targetY : float) (borderRadius : option float)
  : list PathCmd :=
  generateSmartPath sourceX sourceY targetX targetY
    (getNodeBounds nodes [source; target])
    (match borderRadius with Some v => v | None => 4 end).

End SmartEdge.

(** *** SmartEdge with [generateOrgChartPath] *)

Module OrgChartEdge.
Import PrimFloat Flow.
Local Open Scope float_scope.
#[local] Set Warnings "-inexact-float".

Record NodeBounds := {
  b_id : string;
  left : float;
  right : float;
  top : float;
  bottom : float
}.

Definition getNodeBounds (nodes : list Node) (excludeIds : list string)
  : list NodeBounds :=
  map (fun n =>
         let width := orDefault (orElse (measuredWidth n) (width n)) 180 in
         let height := orDefault (orElse (measuredHeight n) (height n)) 100 in
         {| b_id := id n;
            left := x (position n) - 5;
            right := x (position n) + width + 5;
            top := y (position n) - 5;
            bottom := y (position n) + height + 5 |})
    (filter (fun n => negb (Store.includes excludeIds (id n))) nodes).

Definition hLineIntersectsNodes (y x1 x2 : float) (nodes : list NodeBounds)
  : bool :=
  let minX := min x1 x2 in
  let maxX := max x1 x2 in
  existsb (fun n => ge y (top n) && le y (bottom n)
                    && ge maxX (left n) && le minX (right n)) nodes.

Fixpoint findClearY_loop (offs : list float) (x1 x2 startY : float)
    (nodes : list NodeBounds) (preferUp : bool) : float :=
  match offs with
  | [] => startY
  | offset :: rest =>
      if preferUp then
        if negb (hLineIntersectsNodes (startY - offset) x1 x2 nodes)
        then startY - offset
        else if negb (hLineIntersectsNodes (startY + offset) x1 x2 nodes)
        then startY + offset
        else findClearY_loop rest x1 x2 startY nodes preferUp
      else
        if negb (hLineIntersectsNodes (startY + offset) x1 x2 nodes)
        then startY + offset
        else if negb (hLineIntersectsNodes (startY - offset) x1 x2 nodes)
        then startY - offset
        else findClearY_loop rest x1 x2 startY nodes preferUp
  end.

Definition findClearY (x1 x2 startY : float) (nodes : list NodeBounds)
    (preferUp : bool) : float :=
  if negb (hLineIntersectsNodes startY x1 x2 nodes) then startY
  else findClearY_loop (offsets 10 300) x1 x2 startY nodes preferUp.

(** The y of the horizontal bar: the last value of [barY] in
    [generateOrgChartPath]. *)
Definition barY (sourceX sourceY targetX targetY : float)
    (nodes : list NodeBounds) (spacing : float) : float :=
  let goingDown := gt targetY sourceY in
  let barY0 :=
    if goingDown
    then min (sourceY + spacing) (sourceY + (targetY - sourceY) * 0.4)
    else max (sourceY - spacing) (sourceY - (sourceY - targetY) * 0.4) in
  findClearY (min sourceX targetX) (max sourceX targetX) barY0 nodes
    (negb goingDown).

Definition generateOrgChartPath (sourceX sourceY targetX targetY : float)
    (nodes : list NodeBounds) (spacing borderRadius : float)
  : list PathCmd :=
  let r := min borderRadius 6 in
  let goingDown := gt targetY sourceY in
  if lt (abs (sourceX - targetX)) 3 then
    [MoveTo sourceX sourceY; LineTo targetX targetY]
  else
    let barY := barY sourceX sourceY targetX targetY nodes spacing in
    let goingRight := gt targetX sourceX in
    let dir : float := if goingRight then 1 else -1 in
    if goingDown then
      let rClamped :=
        min (min r (abs (barY - sourceY) / 2)) (abs (targetY - barY) / 2) in
      [ MoveTo sourceX sourceY;
        LineTo sourceX (barY - rClamped);
        QuadTo sourceX barY (sourceX + rClamped * dir) barY;
        LineTo (targetX - rClamped * dir) barY;
        QuadTo targetX barY targetX (barY + rClamped);
        LineTo targetX targetY ]
    else
      let rClamped :=
        min (min r (abs (sourceY - barY) / 2)) (abs (barY - targetY) / 2) in
      [ MoveTo sourceX sourceY;
        LineTo sourceX (barY + rClamped);
        QuadTo sourceX barY (sourceX + rClamped * dir) barY;
        LineTo (targetX - rClamped * dir) barY;
        QuadTo targetX barY targetX (barY - rClamped);
        LineTo targetX targetY ].

(** The component: [spacing] is [data?.offset], [borderRadius] is
    [data?.borderRadius]. *)
Definition SmartEdge (nodes : list Node) (source target : string)
    (sourceX sourceY targetX targetY : float)
    (offset borderRadius : option float) : list PathCmd :=
  generateOrgChartPath sourceX sourceY targetX targetY
    (getNodeBounds nodes [source; target])
    (match offset with Some v => v | None => 25 end)
    (match borderRadius with Some v => v | None => 4 end).

End OrgChartEdge.

(* ------------------------------------------------------------------ *)
(** ** The scenario of the routing example *)

Module Scenario.
Import PrimFloat Flow.
Local Open Scope float_scope.

Definition box (i : string) (px py : float) : Node :=
  {| id := i; position := {| x := px; y := py |};
     measuredWidth := None; measuredHeight := None;
     width := Some 160; height := Some 80 |}.

Definition A : Node := box "A" 100 0.
Definition B : Node := box "B" 300 200.
Definition C : Node := box "C" 150 90.

Definition canvas : list Node := [A; B; C].

End Scenario.

(* ------------------------------------------------------------------ *)
(** ** services/layoutService.ts and the toolbar that calls it *)

Module Layout.
Import Types Store.

Inductive Direction := TB | BT | LR | RL.

Record LayoutOptions := {
  direction : Direction;
  nodeWidth : Q;
  nodeHeight : Q;
  horizontalSpacing : Q;
  verticalSpacing : Q
}.

Definition DEFAULT_OPTIONS : LayoutOptions :=
  {| direction := TB; nodeWidth := 160; nodeHeight := 80;
     horizontalSpacing := 60; verticalSpacing := 80 |}.

(** [a || d] on numbers: [0] is falsy. *)
Definition orNumber (a d : Q) : Q := if Qeq_bool a 0 then d else a.

(** The graph [applyDagreLayout] builds, a graphlib [Graph] that is not a
    multigraph.  Its nodes are keyed by id: each key is held once, in the
    order of its first insertion, with the label last set for it, and with
    no label when [setEdge] had to add the node.  Its edges are keyed by
    their two ends and all carry the default label. *)
Record Graph := {
  rankdir : Direction;
  nodesep : Q;
  ranksep : Q;
  marginx : Q;
  marginy : Q;
  graphNodes : list (string * option (Q * Q));
  graphEdges : list (string * string)
}.

(** [g.hasNode(v)] *)
Definition hasNode (ns : list (string * option (Q * Q))) (v : string)
  : bool :=
  existsb (fun kv => fst kv =? v) ns.

(** [g.setNode(v, label)]: a key already there keeps its place and takes
    the new label. *)
Definition setNode (ns : list (string * option (Q * Q))) (v : string)
    (label : Q * Q) : list (string * option (Q * Q)) :=
  if hasNode ns v
  then map (fun kv => if fst kv =? v then (v, Some label) else kv) ns
  else ns ++ [(v, Some label)].

(** [g.setNode(v)], which [setEdge] calls for both ends: a key already
    there is left alone, a new one gets no label. *)
Definition ensureNode (ns : list (string * option (Q * Q))) (v : string)
  : list (string * option (Q * Q)) :=
  if hasNode ns v then ns else ns ++ [(v, None)].

(** [g.hasEdge(v, w)] *)
Definition hasEdge (es : list (string * string)) (v w : string) : bool :=
  existsb (fun e => (fst e =? v) && (snd e =? w)) es.

(** [g.setEdge(v, w)] *)
Definition setEdge
    (g : list (string * option (Q * Q)) * list (string * string))
    (v w : string)
  : list (string * option (Q * Q)) * list (string * string) :=
  (ensureNode (ensureNode (fst g) v) w,
   if hasEdge (snd g) v w then snd g else snd g ++ [(v, w)]).

(** The two loops of [applyDagreLayout] over the nodes: the calls of
    [g.setNode], then a call of [g.setEdge] for each node with a truthy
    [parentId]. *)
Definition addNodes (ns : list DiagramNode) (opts : LayoutOptions)
  : list (string * option (Q * Q)) :=
  fold_left
    (fun acc node =>
       setNode acc (id node)
         (orNumber (width node) (nodeWidth opts),
          orNumber (height node) (nodeHeight opts)))
    ns [].

Definition addEdges (ns : list DiagramNode)
    (g : list (string * option (Q * Q)) * list (string * string))
  : list (string * option (Q * Q)) * list (string * string) :=
  fold_left
    (fun acc node =>
       if truthy (parentId node)
       then match parentId node with
            | Some p => setEdge acc p (id node)
            | None => acc
            end
       else acc)
    ns g.

Definition buildGraph (ns : list DiagramNode) (opts : LayoutOptions)
  : Graph :=
  let g := addEdges ns (addNodes ns opts, []) in
  {| rankdir := direction opts;
     nodesep := horizontalSpacing opts;
     ranksep := verticalSpacing opts;
     marginx := 50;
     marginy := 50;
     graphNodes := fst g;
     graphEdges := snd g |}.

(** [applyDagreLayout].  The layout itself is dagre's: [engine g i] is the
    centre [g.node(i)] holds after [dagre.layout(g)]. *)
Definition applyDagreLayout (engine : Graph -> string -> Q * Q)
    (ns : list DiagramNode) (opts : LayoutOptions) : list NodePosition :=
  let g := buildGraph ns opts in
  map (fun node =>
         let dagreNode := engine g (id node) in
         {| p_id := id node;
            p_x := fst dagreNode - orNumber (width node) (nodeWidth opts) / 2;
            p_y := snd dagreNode
                   - orNumber (height node) (nodeHeight opts) / 2 |})
    ns.

Section Toolbar.
Context `{ES : EdgeStyleDecl}.

(** Toolbar: [canUndo], [canRedo] and [handleAutoLayout]. *)
Definition canUndo (s : DiagramStore) : bool := (0 <? historyIndex s)%Z.

Definition canRedo (s : DiagramStore) : bool :=
  (historyIndex s <? Z.of_nat (List.length (history s)) - 1)%Z.

Definition handleAutoLayout (engine : Graph -> string -> Q * Q)
    (s : DiagramStore) : DiagramStore :=
  if (List.length (nodes s) =? 0)%nat then s
  else setNodePositions (applyDagreLayout engine (nodes s) DEFAULT_OPTIONS) s.

End Toolbar.
End Layout.

(* ------------------------------------------------------------------ *)
(** ** Stores and updates used as examples *)

Module Examples.
Import Types Store.

(** An edge style to run the store with: a bag of rendering hints, empty by
    default. *)
#[export] Instance styleBag : EdgeStyleDecl :=
  {| EdgeStyle := list (string * string); DEFAULT_EDGE_STYLE := [] |}.

Definition noUpdates : NodeUpdates :=
  {| u_id := None; u_parentId := None; u_title := None; u_subtitle := None;
     u_badge := None; u_badgeConfig := None; u_style := None;
     u_textStyle := None; u_boxStyle := None; u_width := None;
     u_height := None; u_position := None |}.

(** Two roots, as two calls of [addRootNode] leave them. *)
Definition twoRoots : DiagramStore :=
  run 0 [AddRootNode "a"; AddRootNode "b"] initialStore.


(** A root with one child. *)
Definition parentAndChild : DiagramStore :=
  run 0 [AddRootNode "a"; AddChildNode "b" "a"] initialStore.

(** A tree on three levels, and the depth of its nodes. *)
Definition smallTree : DiagramStore :=
  run 0 [AddRootNode "r"; AddChildNode "c1" "r"; AddChildNode "c2" "r";
         AddChildNode "g" "c1"; SetSelectedNodes ["g"; "c2"]]
    initialStore.

Definition depth (i : string) : nat :=
  if i =? "r" then 0 else if i =? "g" then 2 else 1.

(** A diagram file whose only node has the empty string as id, loaded and
    its node selected. *)
Definition unnamedNode : DiagramNode :=
  createNode "" None "Root Node" DEFAULT_NODE_STYLE DEFAULT_TEXT_STYLE
    DEFAULT_BOX_STYLE.

Definition unnamedData : DiagramData :=
  {| schemaVersion := 1; dataNodes := [unnamedNode]; dataEdges := [];
     settings := {| name := "d"; createdAt := ""; updatedAt := "" |} |}.

Definition unnamedSelected : DiagramStore :=
  run 0 [LoadDiagram unnamedData; SetSelectedNode (Some "")] initialStore.

(** An edge selected. *)
Definition edgeSelected : DiagramStore :=
  run 0 [AddRootNode "a"; AddChildNode "b" "a";
         SetSelectedEdge (Some "edge-a-b")] initialStore.








(** Three edits and one undo. *)
Definition afterUndo : DiagramStore :=
  run 0 [AddRootNode "a"; AddRootNode "b"; AddRootNode "c"; Undo]
    initialStore.

(** What an auto-layout that moves "a" to (10, 20) writes. *)
Definition movedA : list NodePosition :=
  [{| p_id := "a"; p_x := 10; p_y := 20 |}].

(** Fifty edits, each adding a root under an id of its own. *)
Definition fiftyEdits : list Action :=
  map (fun k => AddRootNode (String (Ascii.ascii_of_nat (48 + k)) ""))
    (seq 0 50).

(** Three edits, and the same followed by two undos. *)
Definition threeRoots : DiagramStore :=
  run 0 [AddRootNode "a"; AddRootNode "b"; AddRootNode "c"] initialStore.

Definition twoUndone : DiagramStore :=
  run 0 [AddRootNode "a"; AddRootNode "b"; AddRootNode "c"; Undo; Undo]
    initialStore.

(** A root and its child, then the root made a child of its child. *)
Definition reparentToB : NodeUpdates :=
  {| u_id := None; u_parentId := Some (Some "b"); u_title := None;
     u_subtitle := None; u_badge := None; u_badgeConfig := None;
     u_style := None; u_textStyle := None; u_boxStyle := None;
     u_width := None; u_height := None; u_position := None |}.

Definition cyclic : DiagramStore :=
  run 0 [AddRootNode "a"; AddChildNode "b" "a"; UpdateNode "a" reparentToB]
    initialStore.

(** An engine that puts "a" at (130, 90) and every other node at
    (330, 250). *)
Definition twoSpots (g : Layout.Graph) (i : string) : Q * Q :=
  if i =? "a" then (130, 90) else (330, 250).

End Examples.

(* ------------------------------------------------------------------ *)
(** ** Properties of the store *)

Module StoreFacts.
Import Types Store.

Section Facts.
Context `{ES : EdgeStyleDecl}.

(** *** Sets of ids *)

Lemma includes_In (a : list string) (v : string) :
  includes a v = true <-> In v a.
Proof.
  unfold includes. rewrite existsb_exists. split.
  - intros [w [Hin Heq]]. apply String.eqb_eq in Heq. now subst.
  - intros Hin. exists v. split; [assumption | apply String.eqb_refl].
Qed.

Lemma includes_false (a : list string) (v : string) :
  includes a v = false <-> ~ In v a.
Proof.
  rewrite <- includes_In. destruct (includes a v); split; congruence.
Qed.

Lemma setAdd_In (set : list string) (v y : string) :
  In y (setAdd set v) <-> In y set \/ y = v.
Proof.
  unfold setAdd. destruct (includes set v) eqn:E.
  - apply includes_In in E. split; [now left | intros [H | ->]; assumption].
  - rewrite in_app_iff. simpl. intuition congruence.
Qed.

Lemma childrenOf_In (ns : list DiagramNode) (p : string) (c : DiagramNode) :
  In c (childrenOf ns p) <-> In c ns /\ parentId c = Some p.
Proof.
  unfold childrenOf. rewrite filter_In. unfold sameId.
  destruct (parentId c) as [q |].
  - rewrite String.eqb_eq. intuition congruence.
  - intuition congruence.
Qed.

(** *** The descendant walk *)

Lemma Reach_unfold (ns : list DiagramNode) (a b : string) :
  Reach ns a b <->
  b = a \/ exists c, In c (childrenOf ns a) /\ Reach ns (id c) b.
Proof.
  split.
  - intros H. destruct H as [a | a c b Hin Hp Hr].
    + now left.
    + right. exists c. rewrite childrenOf_In. auto.
  - intros [-> | [c [Hc Hr]]].
    + constructor.
    + apply childrenOf_In in Hc. destruct Hc as [Hin Hp].
      eapply reach_child; eauto.
Qed.

Local Abbreviation visit fuel ns :=
  (fun (acc : option (list string)) (child : DiagramNode) =>
     match acc with
     | Some set => collectDescendants fuel ns (id child) set
     | None => None
     end).

Lemma visit_None (fuel : nat) (ns cs : list DiagramNode) :
  fold_left (visit fuel ns) cs None = None.
Proof. induction cs; simpl; auto. Qed.

Lemma collectDescendants_S (fuel : nat) (ns : list DiagramNode)
    (a : string) (acc : list string) :
  collectDescendants (S fuel) ns a acc =
  fold_left (visit fuel ns) (childrenOf ns a) (Some (setAdd acc a)).
Proof. reflexivity. Qed.

Lemma visit_all_spec (fuel : nat) (ns : list DiagramNode)
    (IH : forall a acc r, collectDescendants fuel ns a acc = Some r ->
          forall b, In b r <-> In b acc \/ Reach ns a b)
    (cs : list DiagramNode) :
  forall acc r, fold_left (visit fuel ns) cs (Some acc) = Some r ->
  forall b, In b r <-> In b acc \/ exists c, In c cs /\ Reach ns (id c) b.
Proof.
  induction cs as [| c cs IHcs]; simpl; intros acc r H b.
  - injection H as <-. split; [now left | intros [H | [c [[] _]]]; assumption].
  - destruct (collectDescendants fuel ns (id c) acc) as [acc' |] eqn:E.
    + rewrite (IHcs _ _ H b), (IH _ _ _ E b). split.
      * intros [[Hb | Hb] | [c' [Hin Hr]]]; eauto.
      * intros [Hb | [c' [[-> | Hin] Hr]]]; eauto.
    + rewrite visit_None in H. discriminate.
Qed.

(** What the walk returns is what it was given plus what is reached. *)
Lemma collectDescendants_spec (fuel : nat) (ns : list DiagramNode) :
  forall a acc r, collectDescendants fuel ns a acc = Some r ->
  forall b, In b r <-> In b acc \/ Reach ns a b.
Proof.
  induction fuel as [| fuel IH]; intros a acc r H b.
  - discriminate.
  - rewrite collectDescendants_S in H.
    rewrite (visit_all_spec fuel ns IH _ _ _ H b), setAdd_In, Reach_unfold.
    tauto.
Qed.

Lemma maxRank_ge (rank : string -> nat) (ns : list DiagramNode)
    (n : DiagramNode) :
  In n ns -> (rank (id n) <= maxRank rank ns)%nat.
Proof.
  intros Hin. unfold maxRank.
  assert (H : Forall (fun k => (k <= list_max (map (fun n => rank (id n)) ns))%nat)
                (map (fun n => rank (id n)) ns)).
  { apply list_max_le. lia. }
  rewrite Forall_forall in H. apply H.
  apply (in_map (fun n => rank (id n))). assumption.
Qed.

(** On a ranked node list the walk returns, once the stack is deeper than
    the ranks left below the node it starts from. *)
Lemma collectDescendants_returns (rank : string -> nat)
    (ns : list DiagramNode) :
  rankedBy rank ns ->
  forall fuel a acc,
    (maxRank rank ns - rank a < fuel)%nat ->
    exists r, collectDescendants fuel ns a acc = Some r.
Proof.
  intros Hrank. induction fuel as [| fuel IH]; intros a acc Hfuel.
  - lia.
  - rewrite collectDescendants_S.
    assert (Hsub : forall c, In c (childrenOf ns a) -> In c ns)
      by (intros c Hc; now apply childrenOf_In in Hc).
    revert Hsub. generalize (setAdd acc a).
    assert (Hch : forall c, In c (childrenOf ns a) ->
                  forall acc', exists r,
                    collectDescendants fuel ns (id c) acc' = Some r).
    { intros c Hc acc'. apply childrenOf_In in Hc. destruct Hc as [Hin Hp].
      apply IH. pose proof (Hrank c a Hin Hp).
      pose proof (maxRank_ge rank ns c Hin). lia. }
    revert Hch. generalize (childrenOf ns a) as cs.
    induction cs as [| c cs IHcs]; simpl; intros Hch acc' Hsub.
    + eauto.
    + destruct (Hch c (or_introl eq_refl) acc') as [r ->].
      apply IHcs; auto.
Qed.

(** *** The history *)

Lemma slice0_length {A} (a : list A) (e : Z) :
  (List.length (slice0 a e) <= List.length a)%nat.
Proof.
  unfold slice0. destruct (e <? 0)%Z; rewrite length_firstn; lia.
Qed.

Lemma slice0_firstn {A} (a : list A) (e : Z) :
  (0 <= e)%Z -> slice0 a e = firstn (Z.to_nat e) a.
Proof.
  intros He. unfold slice0.
  destruct (Z.ltb_spec e 0); [lia | reflexivity].
Qed.

Lemma saveToHistory_cursor (s : DiagramStore) :
  historyIndex (saveToHistory s)
  = (Z.of_nat (List.length (history (saveToHistory s))) - 1)%Z.
Proof. reflexivity. Qed.

Lemma saveToHistory_history (s : DiagramStore) :
  history (saveToHistory s)
  = let pushed := slice0 (history s) (historyIndex s + 1) ++ [snapshot s] in
    if (50 <? List.length pushed)%nat then tl pushed else pushed.
Proof. reflexivity. Qed.

Lemma saveToHistory_capped (s : DiagramStore) :
  (List.length (history s) <= 50)%nat ->
  (List.length (history (saveToHistory s)) <= 50)%nat.
Proof.
  intros Hlen. rewrite saveToHistory_history. cbv zeta.
  pose proof (slice0_length (history s) (historyIndex s + 1)) as Hs.
  set (pushed := slice0 (history s) (historyIndex s + 1) ++ [snapshot s]).
  assert (Hp : (List.length pushed <= 51)%nat).
  { unfold pushed. rewrite length_app. simpl. lia. }
  destruct (Nat.ltb_spec 50 (List.length pushed)) as [Hgt | Hle].
  - destruct pushed; simpl in *; lia.
  - exact Hle.
Qed.

(** An edit that commits leaves the history as its call of [saveToHistory]
    made it. *)
Lemma commit_history (fuel : nat) (a : Action) (s : DiagramStore) :
  commits a s = true ->
  history (storeOf (step fuel a s)) = history (saveToHistory s) /\
  historyIndex (storeOf (step fuel a s)) = historyIndex (saveToHistory s).
Proof.
  destruct a; simpl; try discriminate; intros Hc.
  - split; reflexivity.
  - unfold addChildNode. destruct (getNodeById _ _); split; reflexivity.
  - unfold addSiblingNode. destruct (getNodeById _ _); split; reflexivity.
  - split; reflexivity.
  - unfold updateSelectedNodes.
    destruct (List.length (selectedNodeIds s) =? 0)%nat;
      [discriminate | split; reflexivity].
  - unfold deleteNode. destruct (collectDescendants _ _ _ _);
      split; reflexivity.
  - unfold deleteSelectedNodes.
    destruct (List.length (selectedNodeIds s) =? 0)%nat; [discriminate |].
    destruct (fold_left _ _ _); split; reflexivity.
  - split; reflexivity.
  - unfold deleteEdge. destruct (find _ _); split; reflexivity.
  - split; reflexivity.
Qed.

Lemma redo_at_newest (s : DiagramStore) :
  historyIndex s = (Z.of_nat (List.length (history s)) - 1)%Z ->
  redo s = Ok s.
Proof.
  intros H. unfold redo. rewrite H, Z.ltb_irrefl. reflexivity.
Qed.

Lemma undo_at_oldest (s : DiagramStore) :
  (historyIndex s <= 0)%Z -> undo s = Ok s.
Proof.
  intros H. unfold undo.
  destruct (Z.ltb_spec 0 (historyIndex s)); [lia | reflexivity].
Qed.

(** Every action leaves the history list as it was, as [saveToHistory]
    makes it, or empty. *)
Lemma step_history (fuel : nat) (a : Action) (s : DiagramStore) :
  history (storeOf (step fuel a s)) = history s \/
  history (storeOf (step fuel a s)) = history (saveToHistory s) \/
  history (storeOf (step fuel a s)) = [].
Proof.
  destruct a; simpl; auto.
  - unfold addChildNode. destruct (getNodeById _ _); auto.
  - unfold addSiblingNode. destruct (getNodeById _ _); auto.
  - unfold updateSelectedNodes.
    destruct (List.length (selectedNodeIds s) =? 0)%nat; auto.
  - unfold deleteNode. destruct (collectDescendants _ _ _ _); auto.
  - unfold deleteSelectedNodes.
    destruct (List.length (selectedNodeIds s) =? 0)%nat; auto.
    destruct (fold_left _ _ _); auto.
  - unfold moveSelectedNodes.
    destruct (List.length (selectedNodeIds s) =? 0)%nat; auto.
  - unfold deleteEdge. destruct (find _ _); auto.
  - unfold undo. destruct (0 <? historyIndex s)%Z; auto.
    destruct (at_index _ _); auto.
  - unfold redo. destruct (historyIndex s <? _)%Z; auto.
    destruct (at_index _ _); auto.
  - destruct saved; auto.
Qed.

Lemma run_capped (fuel : nat) (acts : list Action) :
  forall s, (List.length (history s) <= 50)%nat ->
  (List.length (history (run fuel acts s)) <= 50)%nat.
Proof.
  induction acts as [| a acts IH]; simpl; intros s Hs.
  - exact Hs.
  - apply IH.
    destruct (step_history fuel a s) as [-> | [-> | ->]].
    + exact Hs.
    + now apply saveToHistory_capped.
    + simpl. lia.
Qed.

(** *** Edges and nodes *)

Local Abbreviation keyOf n :=
  (match parentId n with
   | Some p =>
       [(String.append "edge-" (String.append p (String.append "-" (id n))),
         p, id n)]
   | None => []
   end).


Lemma deriveEdges_map_same (f : DiagramNode -> DiagramNode)
    (ns : list DiagramNode) :
  (forall n, id (f n) = id n /\ parentId (f n) = parentId n) ->
  deriveEdges (map f ns) = deriveEdges ns.
Proof.
  intros Hf. unfold deriveEdges.
  induction ns as [| n ns IH]; cbn [flat_map map].
  - reflexivity.
  - destruct (Hf n) as [-> ->]. now rewrite IH.
Qed.










Lemma deleteNode_derives (fuel : nat) (i : string) (s s' : DiagramStore) :
  deleteNode fuel i s = Ok s' -> edgesDerived s'.
Proof.
  unfold deleteNode. destruct (collectDescendants _ _ _ _); [| discriminate].
  intros H. injection H as <-. reflexivity.
Qed.


Lemma addChildNode_derives (uuid p : string) (s : DiagramStore) :
  getNodeById s p <> None -> edgesDerived (addChildNode uuid p s).
Proof.
  intros H. unfold addChildNode.
  change (getNodeById (saveToHistory s) p) with (getNodeById s p).
  destruct (getNodeById s p); [reflexivity | congruence].
Qed.

Lemma addSiblingNode_derives (uuid p : string) (s : DiagramStore) :
  getNodeById s p <> None -> edgesDerived (addSiblingNode uuid p s).
Proof.
  intros H. unfold addSiblingNode.
  change (getNodeById (saveToHistory s) p) with (getNodeById s p).
  destruct (getNodeById s p); [reflexivity | congruence].
Qed.



(** *** Cascade delete *)

Lemma Reach_child_last (ns : list DiagramNode) (a p : string)
    (c : DiagramNode) :
  Reach ns a p -> In c ns -> parentId c = Some p -> Reach ns a (id c).
Proof.
  intros H Hin Hp. revert Hp.
  induction H as [a | a c' b Hin' Hp' Hr IH]; intros Hp.
  - apply (reach_child ns a c (id c)); auto. constructor.
  - apply (reach_child ns a c' (id c)); auto.
Qed.

(** On a forest, with a call stack deeper than the forest, [deleteNode]
    returns; it removes the nodes reached from [i] child-ward and no other,
    leaves no node whose parent was removed, stores the edges derived from
    the nodes that remain, drops the removed ids from [selectedNodeIds] and
    resets [selectedNodeId] when it is a removed id that is not the empty
    string (the guard [state.selectedNodeId && ...] skips a falsy id). *)
Lemma deleteNode_cascade (rank : string -> nat) (fuel : nat) (i : string)
    (s : DiagramStore) :
  forestShaped rank (nodes s) ->
  (maxRank rank (nodes s) < fuel)%nat ->
  exists s' removed,
    deleteNode fuel i s = Ok s' /\
    (forall b, In b removed <-> Reach (nodes s) i b) /\
    nodes s' = filter (fun n => negb (includes removed (id n))) (nodes s) /\
    (forall n p, In n (nodes s') -> parentId n = Some p -> ~ In p removed) /\
    edges s' = deriveEdges (nodes s') /\
    selectedNodeIds s'
    = filter (fun v => negb (includes removed v)) (selectedNodeIds s) /\
    (forall v, selectedNodeId s = Some v -> v <> "" -> In v removed ->
               selectedNodeId s' = None) /\
    (forall v, selectedNodeId s = Some v -> ~ In v removed ->
               selectedNodeId s' = Some v).
Proof.
  intros [_ Hrank] Hfuel.
  destruct (collectDescendants_returns rank (nodes s) Hrank fuel i [])
    as [removed Hcol]; [lia |].
  assert (Hspec : forall b, In b removed <-> Reach (nodes s) i b).
  { intros b. rewrite (collectDescendants_spec _ _ _ _ _ Hcol b).
    simpl. tauto. }
  unfold deleteNode.
  change (nodes (saveToHistory s)) with (nodes s).
  change (selectedNodeId (saveToHistory s)) with (selectedNodeId s).
  change (selectedNodeIds (saveToHistory s)) with (selectedNodeIds s).
  rewrite Hcol. eexists. exists removed.
  split; [reflexivity |]. split; [exact Hspec |].
  cbn [nodes edges selectedNodeIds selectedNodeId set_nodes set_edges
       set_selectedNodeId set_selectedNodeIds].
  split; [reflexivity |]. split.
  { intros n p Hn Hp Hrem. apply filter_In in Hn. destruct Hn as [Hn Hkeep].
    apply negb_true_iff, includes_false in Hkeep. apply Hkeep.
    apply Hspec. apply Hspec in Hrem.
    eapply Reach_child_last; eauto. }
  split; [reflexivity |]. split; [reflexivity |]. split.
  - intros v Hv Hne Hrem. rewrite Hv. unfold truthy.
    destruct (String.eqb_spec v ""); [contradiction |].
    apply includes_In in Hrem. rewrite Hrem. reflexivity.
  - intros v Hv Hrem. rewrite Hv.
    apply includes_false in Hrem. rewrite Hrem.
    now rewrite andb_false_r.
Qed.

(** *** Operations on an id that does not exist *)

Lemma unknown_id_still_commits (uuid i : string) (s : DiagramStore) :
  (getNodeById s i = None -> addChildNode uuid i s = saveToHistory s) /\
  (getNodeById s i = None -> addSiblingNode uuid i s = saveToHistory s) /\
  (getEdgeById s i = None -> deleteEdge i s = saveToHistory s).
Proof.
  repeat split; intros H.
  - unfold addChildNode.
    change (getNodeById (saveToHistory s) i) with (getNodeById s i).
    now rewrite H.
  - unfold addSiblingNode.
    change (getNodeById (saveToHistory s) i) with (getNodeById s i).
    now rewrite H.
  - unfold deleteEdge. unfold getEdgeById in H.
    change (edges (saveToHistory s)) with (edges s). now rewrite H.
Qed.

(** *** The first undo *)

(** After one committed edit on an empty history the cursor is on the only
    snapshot, so [undo] does nothing. *)
Lemma undo_after_first_commit (fuel : nat) (a : Action) (s : DiagramStore) :
  commits a s = true -> history s = [] -> historyIndex s = (-1)%Z ->
  undo (storeOf (step fuel a s)) = Ok (storeOf (step fuel a s)).
Proof.
  intros Hc Hh Hi. apply undo_at_oldest.
  destruct (commit_history fuel a s Hc) as [_ ->].
  rewrite saveToHistory_cursor, saveToHistory_history, Hh, Hi.
  simpl. lia.
Qed.

(** *** Selection *)

(** C5, as the code has it: [setSelectedEdge] sets the edge selection to
    the id it is given and empties the node selection, both the single id
    and the list; [setSelectedNode] sets the single id to the one it is
    given and the list to that id alone (to the empty list for [null] and
    for the empty string), and leaves the edge selection as it was.  Neither
    writes anything else of the store. *)
Theorem edge_selection_clears_nodes_only (i : option string)
    (s : DiagramStore) :
  (selectedEdgeId (setSelectedEdge i s) = i /\
   selectedNodeId (setSelectedEdge i s) = None /\
   selectedNodeIds (setSelectedEdge i s) = [] /\
   nodes (setSelectedEdge i s) = nodes s /\
   edges (setSelectedEdge i s) = edges s /\
   history (setSelectedEdge i s) = history s /\
   historyIndex (setSelectedEdge i s) = historyIndex s) /\
  (selectedNodeId (setSelectedNode i s) = i /\
   selectedNodeIds (setSelectedNode i s)
   = match i with
     | Some v => if v =? "" then [] else [v]
     | None => []
     end /\
   selectedEdgeId (setSelectedNode i s) = selectedEdgeId s /\
   nodes (setSelectedNode i s) = nodes s /\
   edges (setSelectedNode i s) = edges s /\
   history (setSelectedNode i s) = history s /\
   historyIndex (setSelectedNode i s) = historyIndex s).
Proof.
  split; [repeat split |].
  split; [reflexivity |]. split; [| repeat split].
  destruct i as [v |]; [| reflexivity].
  unfold setSelectedNode, truthy. cbn [selectedNodeIds set_selectedNodeIds].
  destruct (v =? ""); reflexivity.
Qed.

(** *** Creation of nodes *)

Lemma find_id_In (ns : list DiagramNode) (i : string) (n : DiagramNode) :
  find (fun m => id m =? i) ns = Some n -> In n ns /\ id n = i.
Proof.
  intros H. apply find_some in H. destruct H as [Hin Heq].
  apply String.eqb_eq in Heq. auto.
Qed.


(** C10: [undo] with the cursor at the oldest entry or on an empty history
    ([historyIndex <= 0]) and [redo] with the cursor at the newest entry
    ([historyIndex = history.length - 1]) return without an exception and
    leave the whole store as it was: nodes, edges, selection, history list
    and cursor. *)
Theorem undo_redo_at_the_ends_are_noops (s : DiagramStore) :
  ((historyIndex s <= 0)%Z -> undo s = Ok s) /\
  (historyIndex s = (Z.of_nat (List.length (history s)) - 1)%Z ->
   redo s = Ok s).
Proof.
  split; [apply undo_at_oldest | apply redo_at_newest].
Qed.

(** C8, as the code has it: an edit that commits to the history keeps the
    snapshots up to the cursor, drops every snapshot after it and appends
    its own (the oldest one leaves when that makes 51); the cursor is then
    on the last entry, so that [redo] right after the edit changes nothing.
    The two position writes, [setNodePositions] and [moveSelectedNodes], do
    not commit: they leave the history and the cursor as they were. *)
Theorem edit_after_undo_truncates_the_future
    (fuel : nat) (a : Action) (s : DiagramStore) :
  (commits a s = true ->
   (-1 <= historyIndex s)%Z ->
   let s' := storeOf (step fuel a s) in
   let kept := firstn (Z.to_nat (historyIndex s + 1)) (history s) in
   history s'
   = (if (50 <? List.length (kept ++ [snapshot s]))%nat
      then tl (kept ++ [snapshot s]) else kept ++ [snapshot s]) /\
   historyIndex s' = (Z.of_nat (List.length (history s')) - 1)%Z /\
   redo s' = Ok s') /\
  (forall positions deltaX deltaY,
     history (setNodePositions positions s) = history s /\
     historyIndex (setNodePositions positions s) = historyIndex s /\
     history (moveSelectedNodes deltaX deltaY s) = history s /\
     historyIndex (moveSelectedNodes deltaX deltaY s) = historyIndex s).
Proof.
  split.
  - intros Hc Hidx s' kept.
    destruct (commit_history fuel a s Hc) as [Hh Hi]. fold s' in Hh, Hi.
    assert (Hcur : historyIndex s'
                   = (Z.of_nat (List.length (history s')) - 1)%Z).
    { rewrite Hi, Hh. apply saveToHistory_cursor. }
    repeat split.
    + rewrite Hh, saveToHistory_history. cbv zeta.
      rewrite slice0_firstn by lia. reflexivity.
    + exact Hcur.
    + now apply redo_at_newest.
  - intros positions deltaX deltaY. unfold moveSelectedNodes.
    destruct (List.length (selectedNodeIds s) =? 0)%nat; repeat split.
Qed.

(** C9: whatever actions are run from the initial store, the history holds
    at most 50 snapshots; and when an edit commits while the snapshots up to
    the cursor are already 50, the oldest of them is dropped, the list stays
    at 50 and the cursor is on the snapshot just added, the last one. *)
Theorem history_never_exceeds_cap (fuel : nat) (acts : list Action) :
  let s := run fuel acts initialStore in
  (List.length (history s) <= 50)%nat /\
  forall a, commits a s = true ->
    let kept := slice0 (history s) (historyIndex s + 1) in
    List.length kept = 50%nat ->
    let s' := storeOf (step fuel a s) in
    history s' = tl kept ++ [snapshot s] /\
    List.length (history s') = 50%nat /\
    historyIndex s' = 49%Z /\
    at_index (history s') (historyIndex s') = Some (snapshot s).
Proof.
  intros s. split.
  - apply run_capped. simpl. lia.
  - intros a Hc kept Hk s'.
    destruct (commit_history fuel a s Hc) as [Hh Hi]. fold s' in Hh, Hi.
    assert (Hhist : history s' = tl kept ++ [snapshot s]).
    { rewrite Hh, saveToHistory_history. cbv zeta. fold kept.
      rewrite length_app, Hk. simpl.
      destruct kept; [discriminate | reflexivity]. }
    assert (Hlen : List.length (history s') = 50%nat).
    { rewrite Hhist, length_app. simpl.
      destruct kept; [discriminate |]. simpl in *. lia. }
    assert (Hcur : historyIndex s' = 49%Z).
    { rewrite Hi, saveToHistory_cursor, <- Hh, Hlen. reflexivity. }
    repeat split; try assumption.
    assert (Ht : List.length (tl kept) = 49%nat).
    { destruct kept; [discriminate |]. simpl in *. lia. }
    rewrite Hcur, Hhist. unfold at_index.
    change (49 <? 0)%Z with false. cbv iota.
    rewrite nth_error_app2 by (rewrite Ht; lia).
    rewrite Ht. replace (Z.to_nat 49 - 49)%nat with 0%nat by lia.
    reflexivity.
Qed.

End Facts.
End StoreFacts.

(* ------------------------------------------------------------------ *)
(** ** The store on concrete runs *)

Module StoreRuns.
Import Types Store Examples.




(** C2, the run that fails: after one edit on a fresh store [undo] is a
    no-op and the root that was added stays; after two edits two [undo]s do
    give the initial nodes back, and two [redo]s then stop one edit short,
    at the store with the first root only. *)
Theorem undo_skips_the_state_before_it :
  let s1 := run 0 [AddRootNode "r"] initialStore in
  let s2 := run 0 [AddRootNode "a"; AddRootNode "b"] initialStore in
  undo s1 = Ok s1 /\
  map id (nodes (undoTimes 1 s1)) = ["r"] /\
  nodes (undoTimes 1 s1) <> nodes initialStore /\
  nodes (undoTimes 2 s2) = nodes initialStore /\
  map id (nodes s2) = ["a"; "b"] /\
  map id (nodes (redoTimes 2 (undoTimes 2 s2))) = ["a"] /\
  nodes (redoTimes 2 (undoTimes 2 s2)) <> nodes s2.
Proof.
  repeat split; vm_compute; discriminate.
Qed.

(** The cascade on the three-level tree: deleting "c1" takes "c1" and its
    child "g", keeps the root and "c2", and drops "g" from the selection. *)
Lemma deleteNode_cascade_example :
  forestShaped depth (nodes smallTree) /\
  (maxRank depth (nodes smallTree) < 3)%nat /\
  exists s',
    deleteNode 3 "c1" smallTree = Ok s' /\
    map id (nodes s') = ["r"; "c2"] /\
    map edgeKey (edges s') = [("edge-r-c2", "r", "c2")] /\
    selectedNodeIds s' = ["c2"].
Proof.
  assert (Hf : forestShaped depth (nodes smallTree)).
  { split.
    - vm_compute. repeat constructor; simpl; intuition discriminate.
    - intros n p Hn Hp. vm_compute in Hn.
      repeat destruct Hn as [<- | Hn]; try contradiction;
        vm_compute in Hp; try discriminate;
        injection Hp as <-; vm_compute; lia. }
  assert (Hr : (maxRank depth (nodes smallTree) < 3)%nat)
    by (vm_compute; lia).
  split; [exact Hf |]. split; [exact Hr |].
  destruct (StoreFacts.deleteNode_cascade depth 3 "c1" smallTree Hf Hr)
    as [s' [removed [Hdel _]]].
  exists s'. split; [exact Hdel |].
  vm_compute in Hdel. injection Hdel as <-. repeat split.
Defined.

(** C3, the run that fails: the diagram has a single node whose id is the
    empty string, and that node is selected.  [deleteNode] removes the node
    and leaves [selectedNodeId] on its id. *)
Theorem deleteNode_keeps_empty_id_selected :
  forestShaped (fun _ => 0%nat) (nodes unnamedSelected) /\
  map id (nodes unnamedSelected) = [""] /\
  selectedNodeId unnamedSelected = Some "" /\
  exists s',
    deleteNode 1 "" unnamedSelected = Ok s' /\
    nodes s' = [] /\
    selectedNodeId s' = Some "".
Proof.
  split.
  { split.
    - vm_compute. constructor; [intros [] | constructor].
    - intros n p [<- | []] Hp. discriminate Hp. }
  split; [reflexivity |]. split; [reflexivity |].
  eexists. split; [vm_compute; reflexivity |]. split; reflexivity.
Qed.

(** C4, the run that fails: on the initial store, where no id exists,
    [addChildNode], [addSiblingNode] and [deleteEdge] leave nodes, edges and
    selection alone and still push a snapshot and move the cursor from -1
    to 0. *)
Theorem unknown_id_pushes_a_snapshot :
  let blank := {| h_nodes := []; h_edges := [] |} in
  let pushed := set_historyIndex 0 (set_history [blank] initialStore) in
  addChildNode "new" "missing" initialStore = pushed /\
  addSiblingNode "new" "missing" initialStore = pushed /\
  deleteEdge "edge-x-y" initialStore = pushed /\
  history pushed <> history initialStore /\
  historyIndex pushed <> historyIndex initialStore.
Proof.
  repeat split; vm_compute; discriminate.
Qed.

(** C5, a run against it: with the edge "edge-a-b" selected,
    [setSelectedNode] on "a" selects the node and the edge stays
    selected. *)
Lemma setSelectedNode_keeps_edge_selected :
  selectedEdgeId edgeSelected = Some "edge-a-b" /\
  selectedNodeId (setSelectedNode (Some "a") edgeSelected) = Some "a" /\
  selectedEdgeId (setSelectedNode (Some "a") edgeSelected)
  = Some "edge-a-b" /\
  selectedEdgeId (setSelectedNode (Some "a") edgeSelected) <> None.
Proof.
  repeat split. discriminate.
Qed.



(** C8, a run against it: after three edits and one undo the cursor is on
    the second of three snapshots; the auto-layout write that moves "a"
    changes the nodes and leaves the three snapshots and the cursor, and
    [redo] right after it still applies: it brings back the second root and
    puts "a" back where it was. *)
Lemma layout_after_undo_keeps_the_future :
  let s := storeOf (step 0 (SetNodePositions movedA) afterUndo) in
  historyIndex afterUndo = 1%Z /\
  List.length (history afterUndo) = 3%nat /\
  map id (nodes afterUndo) = ["a"] /\
  nodes s <> nodes afterUndo /\
  history s = history afterUndo /\
  historyIndex s = 1%Z /\
  redo s <> Ok s /\
  map id (nodes (storeOf (redo s))) = ["a"; "b"] /\
  historyIndex (storeOf (redo s)) = 2%Z.
Proof.
  cbv zeta.
  split; [vm_compute; reflexivity |].
  split; [vm_compute; reflexivity |].
  split; [vm_compute; reflexivity |].
  split; [vm_compute; discriminate |].
  split; [vm_compute; reflexivity |].
  split; [vm_compute; reflexivity |].
  split; [vm_compute; discriminate |].
  split; vm_compute; reflexivity.
Qed.

(** C8, the theorem at work: three edits, one undo, then an edit. *)
Lemma edit_after_undo_witness :
  commits (AddRootNode "d") afterUndo = true /\
  (-1 <= historyIndex afterUndo)%Z /\
  (historyIndex afterUndo
   < Z.of_nat (List.length (history afterUndo)) - 1)%Z /\
  redo (storeOf (step 0 (AddRootNode "d") afterUndo))
  = Ok (storeOf (step 0 (AddRootNode "d") afterUndo)).
Proof.
  assert (Hi : (-1 <= historyIndex afterUndo)%Z)
    by (vm_compute; discriminate).
  split; [reflexivity |]. split; [exact Hi |].
  split; [vm_compute; reflexivity |].
  exact (proj2 (proj2
    (proj1 (StoreFacts.edit_after_undo_truncates_the_future
              0%nat (AddRootNode "d") afterUndo) eq_refl Hi))).
Defined.

(** C9, the theorem at work: the edit after fifty edits. *)
Lemma history_cap_witness :
  let s := run 0 fiftyEdits initialStore in
  commits (AddRootNode "z") s = true /\
  List.length (slice0 (history s) (historyIndex s + 1)) = 50%nat /\
  List.length (history (storeOf (step 0 (AddRootNode "z") s))) = 50%nat /\
  historyIndex (storeOf (step 0 (AddRootNode "z") s)) = 49%Z.
Proof.
  intros s.
  assert (Hk : List.length (slice0 (history s) (historyIndex s + 1)) = 50%nat)
    by (vm_compute; reflexivity).
  split; [reflexivity |]. split; [exact Hk |].
  destruct (proj2 (StoreFacts.history_never_exceeds_cap 0%nat fiftyEdits)
              (AddRootNode "z") eq_refl Hk) as [_ [Hlen [Hcur _]]].
  split; [exact Hlen | exact Hcur].
Defined.

(** C10, the theorem at work on the initial store, whose cursor is -1. *)
Lemma undo_redo_noop_witness :
  (historyIndex initialStore <= 0)%Z /\
  historyIndex initialStore
  = (Z.of_nat (List.length (history initialStore)) - 1)%Z /\
  undo initialStore = Ok initialStore /\
  redo initialStore = Ok initialStore.
Proof.
  assert (H1 : (historyIndex initialStore <= 0)%Z)
    by (vm_compute; discriminate).
  assert (H2 : historyIndex initialStore
               = (Z.of_nat (List.length (history initialStore)) - 1)%Z)
    by reflexivity.
  split; [exact H1 |]. split; [exact H2 |]. split.
  - exact (proj1
      (StoreFacts.undo_redo_at_the_ends_are_noops initialStore) H1).
  - exact (proj2
      (StoreFacts.undo_redo_at_the_ends_are_noops initialStore) H2).
Defined.

End StoreRuns.

(* ------------------------------------------------------------------ *)
(** ** The routers on the scenario *)

Module RouterFacts.
Import PrimFloat Flow Scenario.
Local Open Scope float_scope.

(** The loops of the searches run over the multiples of the step up to the
    bound, 26 offsets up to 390 by 15 and 30 offsets up to 300 by 10, and
    end by their own test: more turns allowed give the same offsets. *)
Lemma offsets_of_the_searches :
  List.length (offsets 15 400) = 26%nat /\
  last (offsets 15 400) 0 = 390 /\
  offsetsFrom 1000 15 15 400 = offsets 15 400 /\
  List.length (offsets 10 300) = 30%nat /\
  last (offsets 10 300) 0 = 300 /\
  offsetsFrom 1000 10 10 300 = offsets 10 300.
Proof. repeat split; vm_compute; reflexivity. Qed.

(** The obstacle of both routers is C alone, grown by 5 on each side. *)
Lemma obstacles_of_the_scenario :
  map (fun b => (SmartEdge.left b, SmartEdge.right b,
                 SmartEdge.top b, SmartEdge.bottom b))
    (SmartEdge.getNodeBounds canvas ["A"; "B"])
  = [(145, 315, 85, 175)] /\
  map (fun b => (OrgChartEdge.left b, OrgChartEdge.right b,
                 OrgChartEdge.top b, OrgChartEdge.bottom b))
    (OrgChartEdge.getNodeBounds canvas ["A"; "B"])
  = [(145, 315, 85, 175)].
Proof. split; vm_compute; reflexivity. Qed.

(** C6, the run that fails: on the scenario [generateOrgChartPath], with
    the default spacing of 25, starts from y = 105, finds it and the probes
    115, 95, 125, 85 and 135 blocked by C, and takes y = 75.  That bar is
    not at 170 or below it; it is above the source anchor (80), outside the
    span from source to target, and inside the box of A, the node the edge
    leaves.  [generateSmartPath] puts its bar at 185 on the same
    scenario. *)
Theorem orgchart_bar_goes_above :
  OrgChartEdge.barY 180 80 380 200
    (OrgChartEdge.getNodeBounds canvas ["A"; "B"]) 25 = 75 /\
  OrgChartEdge.SmartEdge canvas "A" "B" 180 80 380 200 None None
  = [MoveTo 180 80; LineTo 180 72.5; QuadTo 180 75 182.5 75;
     LineTo 377.5 75; QuadTo 380 75 380 77.5; LineTo 380 200] /\
  ge 75 170 = false /\
  lt 75 80 = true /\
  OrgChartEdge.hLineIntersectsNodes 75 180 380
    (OrgChartEdge.getNodeBounds [A] []) = true /\
  SmartEdge.clearMidY 180 80 380 200
    (SmartEdge.getNodeBounds canvas ["A"; "B"]) = 185 /\
  ge 185 170 = true.
Proof. repeat split; vm_compute; reflexivity. Qed.

(** On the scenario the bar of either router is clear of the padded box of
    C: [generateSmartPath], which looks only on the far side of the source,
    has it at y = 185, below C; [generateOrgChartPath] has it at y = 75,
    above the padded top of C (85). *)
Lemma bar_avoids_C_on_the_scenario :
  let smartObstacles := SmartEdge.getNodeBounds canvas ["A"; "B"] in
  let orgObstacles := OrgChartEdge.getNodeBounds canvas ["A"; "B"] in
  (SmartEdge.SmartEdge canvas "A" "B" 180 80 380 200 None
   = [MoveTo 180 80; LineTo 180 95; LineTo 135 95;
      LineTo 135 185; LineTo 380 185; LineTo 380 200] /\
   SmartEdge.clearMidY 180 80 380 200 smartObstacles = 185 /\
   SmartEdge.hLineIntersectsNodes 185 135 380 smartObstacles = false) /\
  (OrgChartEdge.barY 180 80 380 200 orgObstacles 25 = 75 /\
   lt 75 85 = true /\
   OrgChartEdge.hLineIntersectsNodes 75 180 380 orgObstacles = false).
Proof. repeat split; vm_compute; reflexivity. Qed.

(** On the same scenario the path of [generateSmartPath] leaves the source
    by a jog at y = 95 from x = 180 to x = 135; that jog is not a segment
    the router tests, and it does cross the padded box of C. *)
Lemma smart_exit_jog_crosses_C :
  SmartEdge.hLineIntersectsNodes 95 180 135
    (SmartEdge.getNodeBounds canvas ["A"; "B"]) = true.
Proof. vm_compute. reflexivity. Qed.

End RouterFacts.

(* ------------------------------------------------------------------ *)
(** ** More properties of the store *)

Module StoreMore.
Import Types Store StoreFacts.

Section Facts.
Context `{ES : EdgeStyleDecl}.

(** *** The cursor and the snapshots *)

Lemma nth_error_last {A} (l : list A) (a : A) :
  nth_error (l ++ [a]) (List.length l) = Some a.
Proof.
  rewrite nth_error_app2 by lia. now rewrite Nat.sub_diag.
Qed.

Lemma at_index_last {A} (l : list A) (a : A) :
  at_index (l ++ [a]) (Z.of_nat (List.length (l ++ [a])) - 1) = Some a.
Proof.
  unfold at_index. rewrite length_app. simpl.
  destruct (Z.ltb_spec (Z.of_nat (List.length l + 1) - 1) 0); [lia |].
  replace (Z.to_nat (Z.of_nat (List.length l + 1) - 1))
    with (List.length l) by lia.
  apply nth_error_last.
Qed.

Lemma saveToHistory_points_at_snapshot (s : DiagramStore) :
  at_index (history (saveToHistory s)) (historyIndex (saveToHistory s))
  = Some (snapshot s).
Proof.
  rewrite saveToHistory_cursor, saveToHistory_history. cbv zeta.
  set (kept := slice0 (history s) (historyIndex s + 1)).
  destruct (Nat.ltb_spec 50 (List.length (kept ++ [snapshot s]))) as [H | H].
  - destruct kept as [| k kept]; [simpl in H; lia |].
    simpl tl. apply at_index_last.
  - apply at_index_last.
Qed.

Lemma saveToHistory_inRange (s : DiagramStore) :
  cursorInRange (saveToHistory s).
Proof.
  unfold cursorInRange. rewrite saveToHistory_cursor.
  pose proof (saveToHistory_points_at_snapshot s) as H.
  rewrite saveToHistory_cursor in H. unfold at_index in H.
  destruct (Z.ltb_spec
              (Z.of_nat (List.length (history (saveToHistory s))) - 1) 0);
    [discriminate | lia].
Qed.

Lemma at_index_inRange {A} (l : list A) (i : Z) :
  (0 <= i < Z.of_nat (List.length l))%Z -> exists a, at_index l i = Some a.
Proof.
  intros H. unfold at_index. destruct (Z.ltb_spec i 0); [lia |].
  destruct (nth_error l (Z.to_nat i)) eqn:E; [eauto |].
  apply nth_error_None in E. lia.
Qed.

Lemma snapshot_eta (h : HistoryState) :
  {| h_nodes := h_nodes h; h_edges := h_edges h |} = h.
Proof. now destruct h. Qed.

(** What a moving [undo] does. *)
Lemma undo_moves (s : DiagramStore) :
  cursorInRange s -> (0 < historyIndex s)%Z ->
  exists s',
    undo s = Ok s' /\
    historyIndex s' = (historyIndex s - 1)%Z /\
    history s' = history s /\
    at_index (history s) (historyIndex s - 1) = Some (snapshot s') /\
    selectedNodeId s' = selectedNodeId s /\
    selectedNodeIds s' = selectedNodeIds s /\
    selectedEdgeId s' = selectedEdgeId s.
Proof.
  intros Hr Hpos. unfold undo.
  destruct (Z.ltb_spec 0 (historyIndex s)); [| lia].
  destruct (at_index_inRange (history s) (historyIndex s - 1)) as [h Hh].
  { unfold cursorInRange in Hr. lia. }
  rewrite Hh. eexists. split; [reflexivity |].
  unfold snapshot. cbn. rewrite snapshot_eta. repeat split; reflexivity.
Qed.

(** What a moving [redo] does. *)
Lemma redo_moves (s : DiagramStore) :
  cursorInRange s ->
  (historyIndex s < Z.of_nat (List.length (history s)) - 1)%Z ->
  exists s',
    redo s = Ok s' /\
    historyIndex s' = (historyIndex s + 1)%Z /\
    history s' = history s /\
    at_index (history s) (historyIndex s + 1) = Some (snapshot s') /\
    selectedNodeId s' = selectedNodeId s /\
    selectedNodeIds s' = selectedNodeIds s /\
    selectedEdgeId s' = selectedEdgeId s.
Proof.
  intros Hr Hlt. unfold redo.
  destruct (Z.ltb_spec (historyIndex s)
              (Z.of_nat (List.length (history s)) - 1)); [| lia].
  destruct (at_index_inRange (history s) (historyIndex s + 1)) as [h Hh].
  { unfold cursorInRange in Hr. lia. }
  rewrite Hh. eexists. split; [reflexivity |].
  unfold snapshot. cbn. rewrite snapshot_eta. repeat split; reflexivity.
Qed.

Lemma undo_inRange (s : DiagramStore) :
  cursorInRange s -> cursorInRange (storeOf (undo s)).
Proof.
  intros Hr. destruct (Z.ltb_spec 0 (historyIndex s)) as [Hpos | Hle].
  - destruct (undo_moves s Hr Hpos) as [s' [-> [Hi [Hh _]]]].
    unfold cursorInRange in *. simpl. rewrite Hi, Hh. lia.
  - rewrite undo_at_oldest by lia. exact Hr.
Qed.

Lemma redo_inRange (s : DiagramStore) :
  cursorInRange s -> cursorInRange (storeOf (redo s)).
Proof.
  intros Hr.
  destruct (Z.ltb_spec (historyIndex s)
              (Z.of_nat (List.length (history s)) - 1)) as [Hlt | Hge].
  - destruct (redo_moves s Hr Hlt) as [s' [-> [Hi [Hh _]]]].
    unfold cursorInRange in *. simpl. rewrite Hi, Hh. lia.
  - unfold redo.
    destruct (Z.ltb_spec (historyIndex s)
                (Z.of_nat (List.length (history s)) - 1)); [lia |].
    exact Hr.
Qed.

(** Every action leaves list and cursor as they were, as [saveToHistory]
    makes them, as [undo] or [redo] make them, or empty with cursor -1. *)
Lemma step_inRange (fuel : nat) (a : Action) (s : DiagramStore) :
  cursorInRange s -> cursorInRange (storeOf (step fuel a s)).
Proof.
  intros Hr.
  assert (Hsave := saveToHistory_inRange s).
  assert (Hreset : forall s0 : DiagramStore,
             history s0 = [] -> historyIndex s0 = (-1)%Z -> cursorInRange s0).
  { intros s0 Hh Hi. unfold cursorInRange. rewrite Hh, Hi. simpl. lia. }
  destruct a; cbn [step storeOf]; try exact Hr; try exact Hsave.
  - unfold addChildNode. destruct (getNodeById _ _); exact Hsave.
  - unfold addSiblingNode. destruct (getNodeById _ _); exact Hsave.
  - unfold updateSelectedNodes.
    destruct (List.length (selectedNodeIds s) =? 0)%nat;
      [exact Hr | exact Hsave].
  - unfold deleteNode. destruct (collectDescendants _ _ _ _); exact Hsave.
  - unfold deleteSelectedNodes.
    destruct (List.length (selectedNodeIds s) =? 0)%nat; [exact Hr |].
    destruct (fold_left _ _ _); exact Hsave.
  - unfold moveSelectedNodes.
    destruct (List.length (selectedNodeIds s) =? 0)%nat; exact Hr.
  - unfold deleteEdge. destruct (find _ _); exact Hsave.
  - now apply undo_inRange.
  - now apply redo_inRange.
  - now apply Hreset.
  - destruct saved; [now apply Hreset | exact Hr].
  - now apply Hreset.
Qed.

Lemma run_inRange (fuel : nat) (acts : list Action) :
  forall s, cursorInRange s -> cursorInRange (run fuel acts s).
Proof.
  induction acts as [| a acts IH]; simpl; intros s Hr.
  - exact Hr.
  - apply IH. now apply step_inRange.
Qed.

Lemma initial_inRange : cursorInRange initialStore.
Proof. unfold cursorInRange. simpl. lia. Qed.

(** X1: an edit that commits leaves the cursor on the snapshot of the store
    as it was before the edit. *)
Theorem commit_stores_state_before_edit
    (fuel : nat) (a : Action) (s : DiagramStore) :
  commits a s = true ->
  let s' := storeOf (step fuel a s) in
  at_index (history s') (historyIndex s') = Some (snapshot s).
Proof.
  intros Hc s'. destruct (commit_history fuel a s Hc) as [Hh Hi].
  fold s' in Hh, Hi. rewrite Hh, Hi.
  apply saveToHistory_points_at_snapshot.
Qed.

Lemma undo_returns (s : DiagramStore) :
  cursorInRange s -> exists s', undo s = Ok s'.
Proof.
  intros Hr. destruct (Z.ltb_spec 0 (historyIndex s)) as [Hpos | Hle].
  - destruct (undo_moves s Hr Hpos) as [s' [H _]]. eauto.
  - exists s. apply undo_at_oldest. lia.
Qed.

Lemma redo_returns (s : DiagramStore) :
  cursorInRange s -> exists s', redo s = Ok s'.
Proof.
  intros Hr.
  destruct (Z.ltb_spec (historyIndex s)
              (Z.of_nat (List.length (history s)) - 1)) as [Hlt | Hge].
  - destruct (redo_moves s Hr Hlt) as [s' [H _]]. eauto.
  - exists s. unfold redo.
    destruct (Z.ltb_spec (historyIndex s)
                (Z.of_nat (List.length (history s)) - 1)); [lia |].
    reflexivity.
Qed.

(** X2: whatever actions are run from the initial store, the cursor is -1
    or the index of a snapshot, so that [history[historyIndex - 1]] and
    [history[historyIndex + 1]] are defined whenever [undo] and [redo] read
    them: neither raises. *)
Theorem undo_redo_never_raise (fuel : nat) (acts : list Action) :
  let s := run fuel acts initialStore in
  (-1 <= historyIndex s < Z.of_nat (List.length (history s)))%Z /\
  (exists s', undo s = Ok s') /\
  (exists s', redo s = Ok s').
Proof.
  intros s.
  assert (Hr : cursorInRange s) by (apply run_inRange, initial_inRange).
  split; [exact Hr |]. split; [now apply undo_returns | now apply redo_returns].
Qed.

Lemma undoTimes_S_spec (k : nat) :
  forall s : DiagramStore,
    cursorInRange s -> (Z.of_nat (S k) <= historyIndex s)%Z ->
    historyIndex (undoTimes (S k) s) = (historyIndex s - Z.of_nat (S k))%Z /\
    history (undoTimes (S k) s) = history s /\
    at_index (history s) (historyIndex s - Z.of_nat (S k))
    = Some (snapshot (undoTimes (S k) s)).
Proof.
  induction k as [| k IH]; intros s Hr Hk.
  - destruct (undo_moves s Hr) as [s' [Hu [Hi [Hh [Hs _]]]]]; [lia |].
    cbn [undoTimes]. rewrite Hu. cbn [storeOf].
    change (Z.of_nat 1) with 1%Z. auto.
  - destruct (undo_moves s Hr) as [s' [Hu [Hi [Hh [Hs _]]]]]; [lia |].
    change (undoTimes (S (S k)) s)
      with (undoTimes (S k) (storeOf (undo s))).
    rewrite Hu. cbn [storeOf].
    assert (Hr' : cursorInRange s').
    { unfold cursorInRange in *. rewrite Hi, Hh. lia. }
    destruct (IH s' Hr') as [Hi' [Hh' Hs']]; [lia |].
    rewrite Hi', Hh', Hi. rewrite Hh, Hi in Hs'.
    replace (historyIndex s - Z.of_nat (S (S k)))%Z
      with (historyIndex s - 1 - Z.of_nat (S k))%Z by lia.
    auto.
Qed.

(** X3: with the cursor on a snapshot, [k >= 1] calls of [undo] that the
    cursor allows ([k <= historyIndex]) move it [k] places back, keep the
    history list, and leave as nodes and edges the snapshot [k] places
    before the cursor, whatever nodes and edges the store held. *)
Theorem undo_k_times_lands_k_snapshots_back (k : nat) (s : DiagramStore) :
  (-1 <= historyIndex s < Z.of_nat (List.length (history s)))%Z ->
  (1 <= k)%nat -> (Z.of_nat k <= historyIndex s)%Z ->
  historyIndex (undoTimes k s) = (historyIndex s - Z.of_nat k)%Z /\
  history (undoTimes k s) = history s /\
  at_index (history s) (historyIndex s - Z.of_nat k)
  = Some (snapshot (undoTimes k s)).
Proof.
  intros Hr Hk Hle. destruct k as [| k]; [lia |].
  now apply undoTimes_S_spec.
Qed.

Lemma redoTimes_S_spec (k : nat) :
  forall s : DiagramStore,
    cursorInRange s ->
    (historyIndex s + Z.of_nat (S k)
     <= Z.of_nat (List.length (history s)) - 1)%Z ->
    historyIndex (redoTimes (S k) s) = (historyIndex s + Z.of_nat (S k))%Z /\
    history (redoTimes (S k) s) = history s /\
    at_index (history s) (historyIndex s + Z.of_nat (S k))
    = Some (snapshot (redoTimes (S k) s)).
Proof.
  induction k as [| k IH]; intros s Hr Hk.
  - destruct (redo_moves s Hr) as [s' [Hu [Hi [Hh [Hs _]]]]]; [lia |].
    cbn [redoTimes]. rewrite Hu. cbn [storeOf].
    change (Z.of_nat 1) with 1%Z. auto.
  - destruct (redo_moves s Hr) as [s' [Hu [Hi [Hh [Hs _]]]]]; [lia |].
    change (redoTimes (S (S k)) s)
      with (redoTimes (S k) (storeOf (redo s))).
    rewrite Hu. cbn [storeOf].
    assert (Hr' : cursorInRange s').
    { unfold cursorInRange in *. rewrite Hi, Hh. lia. }
    destruct (IH s' Hr') as [Hi' [Hh' Hs']]; [rewrite Hi, Hh; lia |].
    rewrite Hi', Hh', Hi. rewrite Hh, Hi in Hs'.
    replace (historyIndex s + Z.of_nat (S (S k)))%Z
      with (historyIndex s + 1 + Z.of_nat (S k))%Z by lia.
    auto.
Qed.

(** X4: with the cursor on a snapshot or at -1, [k >= 1] calls of [redo]
    that stay within the list move the cursor [k] places forward, keep the
    history list, and leave as nodes and edges the snapshot [k] places
    after the cursor. *)
Theorem redo_k_times_lands_k_snapshots_forward
    (k : nat) (s : DiagramStore) :
  (-1 <= historyIndex s < Z.of_nat (List.length (history s)))%Z ->
  (1 <= k)%nat ->
  (historyIndex s + Z.of_nat k
   <= Z.of_nat (List.length (history s)) - 1)%Z ->
  historyIndex (redoTimes k s) = (historyIndex s + Z.of_nat k)%Z /\
  history (redoTimes k s) = history s /\
  at_index (history s) (historyIndex s + Z.of_nat k)
  = Some (snapshot (redoTimes k s)).
Proof.
  intros Hr Hk Hle. destruct k as [| k]; [lia |].
  now apply redoTimes_S_spec.
Qed.

(** X5: [undo] followed by [redo], when [undo] moves, brings the cursor
    back and leaves as nodes and edges the snapshot under it, which is the
    state before the last committed edit and not the store [undo] was
    called on; the selection is as it was. *)
Theorem undo_then_redo_restores_cursor_snapshot (s : DiagramStore) :
  (-1 <= historyIndex s < Z.of_nat (List.length (history s)))%Z ->
  (0 < historyIndex s)%Z ->
  exists s1 s2,
    undo s = Ok s1 /\ redo s1 = Ok s2 /\
    historyIndex s2 = historyIndex s /\
    history s2 = history s /\
    at_index (history s) (historyIndex s) = Some (snapshot s2) /\
    selectedNodeId s2 = selectedNodeId s /\
    selectedNodeIds s2 = selectedNodeIds s /\
    selectedEdgeId s2 = selectedEdgeId s.
Proof.
  intros Hr Hpos.
  destruct (undo_moves s Hr Hpos)
    as [s1 [Hu [Hi [Hh [_ [Ha [Hb Hc]]]]]]].
  assert (Hr1 : cursorInRange s1).
  { unfold cursorInRange in *. rewrite Hi, Hh. lia. }
  destruct (redo_moves s1 Hr1)
    as [s2 [Hre [Hi2 [Hh2 [Hs2 [Ha2 [Hb2 Hc2]]]]]]].
  { rewrite Hi, Hh. unfold cursorInRange in Hr. lia. }
  exists s1, s2. rewrite Hi2, Hh2, Hi, Hh, Ha2, Hb2, Hc2, Ha, Hb, Hc.
  rewrite Hi, Hh in Hs2.
  replace (historyIndex s - 1 + 1)%Z with (historyIndex s) in * by lia.
  repeat split; auto.
Qed.

(** *** Selection *)

Lemma primaryOf_hd (ids : list string) : primaryOf ids = hd_error ids.
Proof.
  unfold primaryOf. destruct ids as [| a [| b ids]]; reflexivity.
Qed.

Lemma filter_other_app_self (i : string) (l : list string) :
  ~ In i l -> filter (fun nid => negb (nid =? i)) (l ++ [i]) = l.
Proof.
  intros Hnot. rewrite filter_app. simpl. rewrite String.eqb_refl. simpl.
  rewrite app_nil_r. induction l as [| a l IH]; simpl.
  - reflexivity.
  - destruct (String.eqb_spec a i) as [-> | Hne].
    + exfalso. apply Hnot. now left.
    + simpl. f_equal. apply IH. intros H. apply Hnot. now right.
Qed.

Lemma In_filter_other (i j : string) (l : list string) :
  In j (filter (fun nid => negb (nid =? i)) l) <-> j <> i /\ In j l.
Proof.
  rewrite filter_In. destruct (String.eqb_spec j i); simpl;
    intuition congruence.
Qed.

(** X6: [toggleNodeSelection] adds the id at the end when it is not
    selected and removes every occurrence of it when it is.  Toggling twice
    gives the selection back when the id was not selected; when it was, the
    id comes back at the end of the list.  The edge selection is not
    touched. *)
Theorem toggle_adds_or_removes (i : string) (s : DiagramStore) :
  (forall j, In j (selectedNodeIds (toggleNodeSelection i s)) <->
             (j = i /\ ~ In i (selectedNodeIds s)) \/
             (j <> i /\ In j (selectedNodeIds s))) /\
  (~ In i (selectedNodeIds s) ->
   selectedNodeIds (toggleNodeSelection i (toggleNodeSelection i s))
   = selectedNodeIds s) /\
  (In i (selectedNodeIds s) ->
   selectedNodeIds (toggleNodeSelection i (toggleNodeSelection i s))
   = filter (fun nid => negb (nid =? i)) (selectedNodeIds s) ++ [i]) /\
  selectedEdgeId (toggleNodeSelection i s) = selectedEdgeId s.
Proof.
  unfold toggleNodeSelection.
  cbn [selectedNodeIds selectedEdgeId set_selectedNodeIds set_selectedNodeId].
  destruct (includes (selectedNodeIds s) i) eqn:E.
  - apply includes_In in E. repeat split.
    + intros H. apply In_filter_other in H. tauto.
    + intros [[_ H] | H]; [contradiction | now apply In_filter_other].
    + intros H. contradiction.
    + intros _.
      assert (Hout : includes
                (filter (fun nid => negb (nid =? i)) (selectedNodeIds s)) i
              = false).
      { apply includes_false. intros H. apply In_filter_other in H. tauto. }
      now rewrite Hout.
  - apply includes_false in E. repeat split.
    + intros H. apply in_app_iff in H. destruct H as [H | [<- | []]].
      * right. split; [intros -> | ]; auto.
      * now left.
    + intros [[-> _] | [_ H]]; apply in_app_iff; [right; now left | now left].
    + intros _.
      assert (Hin : includes (selectedNodeIds s ++ [i]) i = true).
      { apply includes_In, in_app_iff. right. now left. }
      rewrite Hin. now apply filter_other_app_self.
    + intros H. contradiction.
Qed.

Lemma fold_setAdd_spec (l : list string) :
  forall acc,
    NoDup acc ->
    NoDup (fold_left setAdd l acc) /\
    (forall j, In j (fold_left setAdd l acc) <-> In j acc \/ In j l) /\
    exists added, fold_left setAdd l acc = acc ++ added.
Proof.
  induction l as [| a l IH]; simpl; intros acc Hnd.
  - repeat split; try tauto; auto. exists []. now rewrite app_nil_r.
  - assert (Hnd' : NoDup (setAdd acc a)).
    { unfold setAdd. destruct (includes acc a) eqn:E; [exact Hnd |].
      apply includes_false in E. apply NoDup_app; auto.
      - constructor; [intros [] | constructor].
      - intros v Hv [<- | []]. contradiction. }
    destruct (IH _ Hnd') as [H1 [H2 [added H3]]]. repeat split.
    + exact H1.
    + intros H. apply H2 in H. rewrite setAdd_In in H. intuition.
    + intros H. apply H2. rewrite setAdd_In. intuition.
    + rewrite H3. unfold setAdd. destruct (includes acc a).
      * now exists added.
      * exists (a :: added). now rewrite <- app_assoc.
Qed.

Lemma fold_setAdd_NoDup_id (l : list string) :
  NoDup l -> forall acc, (forall j, In j l -> ~ In j acc) ->
  fold_left setAdd l acc = acc ++ l.
Proof.
  induction 1 as [| a l Hnotin Hnd IH]; simpl; intros acc Hdisj.
  - now rewrite app_nil_r.
  - unfold setAdd at 2.
    assert (E : includes acc a = false).
    { apply includes_false. apply Hdisj. now left. }
    rewrite E, IH.
    + now rewrite <- app_assoc.
    + intros j Hj Hin. apply in_app_iff in Hin.
      destruct Hin as [Hin | [<- | []]].
      * apply (Hdisj j); [now right | assumption].
      * contradiction.
Qed.

(** X7: [addToSelection] leaves a selection without repetition that holds
    the ids selected before and the ids given, and nothing else; a
    selection that had no repetition stays in front, in its order. *)
Theorem addToSelection_is_a_union (ids : list string) (s : DiagramStore) :
  NoDup (selectedNodeIds (addToSelection ids s)) /\
  (forall j, In j (selectedNodeIds (addToSelection ids s)) <->
             In j (selectedNodeIds s) \/ In j ids) /\
  (NoDup (selectedNodeIds s) ->
   exists added,
     selectedNodeIds (addToSelection ids s) = selectedNodeIds s ++ added).
Proof.
  unfold addToSelection.
  cbn [selectedNodeIds set_selectedNodeIds set_selectedNodeId].
  destruct (fold_setAdd_spec (selectedNodeIds s ++ ids) [] (NoDup_nil _))
    as [H1 [H2 _]].
  repeat split.
  - exact H1.
  - intros H. apply H2 in H. rewrite in_app_iff in H. simpl in H. tauto.
  - intros H. apply H2. rewrite in_app_iff. tauto.
  - intros Hnd. rewrite fold_left_app.
    rewrite (fold_setAdd_NoDup_id _ Hnd []) by (intros j _ []).
    simpl. apply fold_setAdd_spec. exact Hnd.
Qed.

(** X8: after [setSelectedNodes], [toggleNodeSelection], [addToSelection],
    [clearSelection] and [setSelectedEdge] the single selection is the
    first id of the multiple selection, or null when that is empty.  The
    operations that add a node set the single selection to the new id and
    leave the multiple selection as it was. *)
Theorem single_selection_is_head_of_multiple
    (ids : list string) (i : string) (e : option string) (uuid : string)
    (s : DiagramStore) :
  (selectedNodeId (setSelectedNodes ids s)
   = hd_error (selectedNodeIds (setSelectedNodes ids s)) /\
   selectedNodeId (toggleNodeSelection i s)
   = hd_error (selectedNodeIds (toggleNodeSelection i s)) /\
   selectedNodeId (addToSelection ids s)
   = hd_error (selectedNodeIds (addToSelection ids s)) /\
   selectedNodeId (clearSelection s)
   = hd_error (selectedNodeIds (clearSelection s)) /\
   selectedNodeId (setSelectedEdge e s)
   = hd_error (selectedNodeIds (setSelectedEdge e s))) /\
  (selectedNodeId (addRootNode uuid s) = Some uuid /\
   selectedNodeIds (addRootNode uuid s) = selectedNodeIds s) /\
  (getNodeById s i <> None ->
   selectedNodeId (addChildNode uuid i s) = Some uuid /\
   selectedNodeIds (addChildNode uuid i s) = selectedNodeIds s /\
   selectedNodeId (addSiblingNode uuid i s) = Some uuid /\
   selectedNodeIds (addSiblingNode uuid i s) = selectedNodeIds s).
Proof.
  split; [| split].
  - unfold setSelectedNodes, toggleNodeSelection, addToSelection,
      clearSelection, setSelectedEdge.
    cbn [selectedNodeId selectedNodeIds set_selectedNodeIds
         set_selectedNodeId set_selectedEdgeId].
    rewrite !primaryOf_hd. repeat split.
  - split; reflexivity.
  - intros Hex. unfold addChildNode, addSiblingNode.
    change (getNodeById (saveToHistory s) i) with (getNodeById s i).
    destruct (getNodeById s i); [| congruence].
    repeat split.
Qed.

(** *** Deleting subtrees *)

Local Abbreviation visit fuel ns :=
  (fun (acc : option (list string)) (child : DiagramNode) =>
     match acc with
     | Some set => collectDescendants fuel ns (id child) set
     | None => None
     end).

Local Abbreviation collectFrom fuel ns :=
  (fun (acc : option (list string)) (i : string) =>
     match acc with
     | Some set => collectDescendants fuel ns i set
     | None => None
     end).

Lemma collectFrom_None (fuel : nat) (ns : list DiagramNode)
    (ids : list string) :
  fold_left (collectFrom fuel ns) ids None = None.
Proof. induction ids; simpl; auto. Qed.

Lemma collectFrom_spec (fuel : nat) (ns : list DiagramNode)
    (ids : list string) :
  forall acc r,
    fold_left (collectFrom fuel ns) ids (Some acc) = Some r ->
    forall b, In b r <-> In b acc \/ exists i, In i ids /\ Reach ns i b.
Proof.
  induction ids as [| i ids IH]; simpl; intros acc r H b.
  - injection H as <-. split; [now left | intros [H | [i [[] _]]]; exact H].
  - destruct (collectDescendants fuel ns i acc) as [acc' |] eqn:E.
    + rewrite (IH _ _ H b), (collectDescendants_spec _ _ _ _ _ E b). split.
      * intros [[Hb | Hb] | [j [Hin Hr]]]; eauto.
      * intros [Hb | [j [[-> | Hin] Hr]]]; eauto.
    + rewrite collectFrom_None in H. discriminate.
Qed.

Lemma collectFrom_returns (rank : string -> nat) (ns : list DiagramNode)
    (fuel : nat) :
  rankedBy rank ns -> (maxRank rank ns < fuel)%nat ->
  forall ids acc,
    exists r, fold_left (collectFrom fuel ns) ids (Some acc) = Some r.
Proof.
  intros Hrank Hfuel. induction ids as [| i ids IH]; simpl; intros acc.
  - eauto.
  - destruct (collectDescendants_returns rank ns Hrank fuel i acc)
      as [r ->]; [lia |].
    apply IH.
Qed.

Lemma no_dangling_after_filter (ns : list DiagramNode)
    (removed : list string) :
  (forall p c, In p removed -> In c ns -> parentId c = Some p ->
               In (id c) removed) ->
  forall n p,
    In n (filter (fun n => negb (includes removed (id n))) ns) ->
    parentId n = Some p -> ~ In p removed.
Proof.
  intros Hclosed n p Hn Hp Hrem.
  apply filter_In in Hn. destruct Hn as [Hn Hkeep].
  apply negb_true_iff, includes_false in Hkeep. apply Hkeep.
  eapply Hclosed; eauto.
Qed.

(** X9: on a node list whose parent links go down along a rank, and with a
    call stack deeper than the ranks, [deleteNode] returns; it removes
    exactly the nodes whose id is reached from the given id child-ward,
    keeps the others in their order, leaves no node whose parent was
    removed, stores the edges derived from what remains, and commits one
    snapshot of the store as it was. *)
Theorem deleteNode_removes_exactly_the_subtree
    (rank : string -> nat) (fuel : nat) (i : string) (s : DiagramStore) :
  rankedBy rank (nodes s) ->
  (maxRank rank (nodes s) < fuel)%nat ->
  exists s' removed,
    deleteNode fuel i s = Ok s' /\
    (forall b, In b removed <-> Reach (nodes s) i b) /\
    nodes s' = filter (fun n => negb (includes removed (id n))) (nodes s) /\
    (forall n p, In n (nodes s') -> parentId n = Some p -> ~ In p removed) /\
    edges s' = deriveEdges (nodes s') /\
    selectedNodeIds s'
    = filter (fun v => negb (includes removed v)) (selectedNodeIds s) /\
    at_index (history s') (historyIndex s') = Some (snapshot s).
Proof.
  intros Hrank Hfuel.
  destruct (collectDescendants_returns rank (nodes s) Hrank fuel i [])
    as [removed Hcol]; [lia |].
  assert (Hspec : forall b, In b removed <-> Reach (nodes s) i b).
  { intros b. rewrite (collectDescendants_spec _ _ _ _ _ Hcol b).
    simpl. tauto. }
  unfold deleteNode.
  change (nodes (saveToHistory s)) with (nodes s).
  change (selectedNodeId (saveToHistory s)) with (selectedNodeId s).
  change (selectedNodeIds (saveToHistory s)) with (selectedNodeIds s).
  rewrite Hcol. eexists. exists removed.
  split; [reflexivity |]. split; [exact Hspec |].
  cbn [nodes edges selectedNodeIds selectedNodeId set_nodes set_edges
       set_selectedNodeId set_selectedNodeIds history historyIndex].
  split; [reflexivity |]. split.
  { apply no_dangling_after_filter. intros p c Hp Hc Hpc.
    apply Hspec. apply Hspec in Hp. eapply Reach_child_last; eauto. }
  split; [reflexivity |]. split; [reflexivity |].
  apply saveToHistory_points_at_snapshot.
Qed.

(** X10: [deleteSelectedNodes] with nothing selected returns the store
    untouched, without a snapshot.  With a selection, on a ranked node list
    and with a deep enough stack, it returns; it removes exactly the nodes
    reached child-ward from some selected id, leaves no node whose parent
    was removed, stores the derived edges, empties the node selection and
    commits one snapshot. *)
Theorem deleteSelectedNodes_removes_the_selected_subtrees
    (rank : string -> nat) (fuel : nat) (s : DiagramStore) :
  (selectedNodeIds s = [] -> deleteSelectedNodes fuel s = Ok s) /\
  (selectedNodeIds s <> [] ->
   rankedBy rank (nodes s) ->
   (maxRank rank (nodes s) < fuel)%nat ->
   exists s' removed,
     deleteSelectedNodes fuel s = Ok s' /\
     (forall b, In b removed <->
                exists i, In i (selectedNodeIds s) /\ Reach (nodes s) i b) /\
     nodes s' = filter (fun n => negb (includes removed (id n))) (nodes s) /\
     (forall n p, In n (nodes s') -> parentId n = Some p ->
                  ~ In p removed) /\
     edges s' = deriveEdges (nodes s') /\
     selectedNodeId s' = None /\
     selectedNodeIds s' = [] /\
     at_index (history s') (historyIndex s') = Some (snapshot s)).
Proof.
  split.
  - intros Hsel. unfold deleteSelectedNodes. now rewrite Hsel.
  - intros Hsel Hrank Hfuel. unfold deleteSelectedNodes.
    destruct (selectedNodeIds s) as [| v sel] eqn:Esel; [congruence |].
    cbn [List.length Nat.eqb].
    change (nodes (saveToHistory s)) with (nodes s).
    destruct (collectFrom_returns rank (nodes s) fuel Hrank Hfuel
                (v :: sel) []) as [removed Hcol].
    assert (Hspec : forall b, In b removed <->
              exists i, In i (v :: sel) /\ Reach (nodes s) i b).
    { intros b. rewrite (collectFrom_spec _ _ _ _ _ Hcol b).
      simpl. tauto. }
    rewrite Hcol. eexists. exists removed.
    split; [reflexivity |]. split; [exact Hspec |].
    cbn [nodes edges selectedNodeIds selectedNodeId set_nodes set_edges
         set_selectedNodeId set_selectedNodeIds history historyIndex].
    split; [reflexivity |]. split.
    { apply no_dangling_after_filter. intros p c Hp Hc Hpc.
      apply Hspec. apply Hspec in Hp. destruct Hp as [j [Hj Hr]].
      exists j. split; [exact Hj |]. eapply Reach_child_last; eauto. }
    repeat split. apply saveToHistory_points_at_snapshot.
Qed.

(** *** Cycles *)

Lemma onCycle_child (ns : list DiagramNode) (a : string) :
  onCycle ns a ->
  exists c, In c (childrenOf ns a) /\ onCycle ns (id c).
Proof.
  intros [c [Hin [Hp Hr]]]. exists c. split.
  - apply childrenOf_In. auto.
  - apply Reach_unfold in Hr. destruct Hr as [Heq | [c' [Hc' Hr']]].
    + exists c. rewrite <- Heq. repeat split; auto. constructor.
    + apply childrenOf_In in Hc'. destruct Hc' as [Hin' Hp'].
      exists c'. repeat split; auto.
      eapply Reach_child_last; eauto.
Qed.

Lemma visit_stuck (fuel : nat) (ns cs : list DiagramNode) (c : DiagramNode) :
  In c cs ->
  (forall acc, collectDescendants fuel ns (id c) acc = None) ->
  forall acc0, fold_left (visit fuel ns) cs acc0 = None.
Proof.
  intros Hin Hc. induction cs as [| c0 cs IH]; [contradiction |].
  intros acc0. simpl. destruct Hin as [-> | Hin].
  - destruct acc0; [rewrite Hc |]; apply visit_None.
  - now apply IH.
Qed.

Lemma collectDescendants_on_cycle (ns : list DiagramNode) (fuel : nat) :
  forall a acc, onCycle ns a -> collectDescendants fuel ns a acc = None.
Proof.
  induction fuel as [| fuel IH]; intros a acc Hcyc.
  - reflexivity.
  - rewrite collectDescendants_S.
    destruct (onCycle_child ns a Hcyc) as [c [Hc Hcyc']].
    apply (visit_stuck fuel ns _ c Hc). intros acc'. now apply IH.
Qed.

(** X11: nothing in the store rejects a cycle of parent links, and the walk
    of [deleteNode] does not end on one.  When the id given lies on a cycle
    the recursion uses up the call stack however deep it is: [deleteNode]
    raises, after its snapshot was pushed and with nodes, edges and
    selection as they were. *)
Theorem deleteNode_on_a_cycle_exhausts_the_stack
    (fuel : nat) (i : string) (s : DiagramStore) :
  onCycle (nodes s) i ->
  deleteNode fuel i s = Raise RangeError (saveToHistory s) /\
  nodes (saveToHistory s) = nodes s /\
  edges (saveToHistory s) = edges s /\
  selectedNodeIds (saveToHistory s) = selectedNodeIds s.
Proof.
  intros Hcyc. unfold deleteNode.
  change (nodes (saveToHistory s)) with (nodes s).
  rewrite (collectDescendants_on_cycle (nodes s) fuel i [] Hcyc).
  repeat split.
Qed.

(** *** Derived edges *)

Lemma deriveEdges_In (ns : list DiagramNode) (e : DiagramEdge) :
  In e (deriveEdges ns) <->
  exists n p, In n ns /\ parentId n = Some p /\
    e = {| edgeId := String.append "edge-"
                       (String.append p (String.append "-" (id n)));
           source := p; target := id n; type := smoothstep;
           edgeStyle := Some DEFAULT_EDGE_STYLE |}.
Proof.
  unfold deriveEdges. rewrite in_flat_map. split.
  - intros [n [Hn He]]. destruct (parentId n) as [p |] eqn:Hp; [| contradiction].
    destruct He as [<- | []]. exists n, p. auto.
  - intros [n [p [Hn [Hp ->]]]]. exists n. rewrite Hp. split; [exact Hn |].
    now left.
Qed.

Lemma deriveEdges_targets (ns : list DiagramNode) :
  map target (deriveEdges ns) = map id (filter hasParent ns).
Proof.
  unfold deriveEdges, hasParent.
  induction ns as [| n ns IH]; cbn [flat_map filter map].
  - reflexivity.
  - rewrite map_app, IH. destruct (parentId n); reflexivity.
Qed.

Lemma deriveEdges_sources (ns : list DiagramNode) :
  map (fun e => Some (source e)) (deriveEdges ns)
  = map parentId (filter hasParent ns).
Proof.
  unfold deriveEdges, hasParent.
  induction ns as [| n ns IH]; cbn [flat_map filter map].
  - reflexivity.
  - rewrite map_app, IH.
    destruct (parentId n) eqn:Hp; cbn [map app]; rewrite ?Hp; reflexivity.
Qed.

Lemma NoDup_map_filter {A B} (h : A -> B) (f : A -> bool) (l : list A) :
  NoDup (map h l) -> NoDup (map h (filter f l)).
Proof.
  induction l as [| a l IH]; simpl; intros Hnd.
  - constructor.
  - inversion Hnd as [| ? ? Hnotin Hnd']; subst.
    destruct (f a); simpl; [| now apply IH].
    constructor; [| now apply IH].
    intros Hin. apply Hnotin. apply in_map_iff in Hin.
    destruct Hin as [b [Hb Hf]]. apply filter_In in Hf.
    apply in_map_iff. exists b. tauto.
Qed.

(** X12: [deriveEdges] gives one edge for each node with a parent, in the
    order of the nodes, from the parent to the node, with the id built from
    the two ids, of type smoothstep and default style; the nodes without a
    parent give none.  Under unique node ids no two edges share a target:
    a node has at most one incoming edge. *)
Theorem deriveEdges_one_edge_per_child (ns : list DiagramNode) :
  map target (deriveEdges ns) = map id (filter hasParent ns) /\
  map (fun e => Some (source e)) (deriveEdges ns)
  = map parentId (filter hasParent ns) /\
  (forall e, In e (deriveEdges ns) ->
     edgeId e = String.append "edge-"
                  (String.append (source e)
                     (String.append "-" (target e))) /\
     type e = smoothstep /\
     edgeStyle e = Some DEFAULT_EDGE_STYLE) /\
  (NoDup (map id ns) -> NoDup (map target (deriveEdges ns))).
Proof.
  split; [apply deriveEdges_targets |].
  split; [apply deriveEdges_sources |]. split.
  - intros e He. apply deriveEdges_In in He.
    destruct He as [n [p [_ [_ ->]]]]. repeat split.
  - intros Hnd. rewrite deriveEdges_targets. now apply NoDup_map_filter.
Qed.

(** X13: the operations that recompute the edges forget what [updateEdge]
    wrote: after [addRootNode], after [addChildNode] and [addSiblingNode]
    on an id that exists, and after a [deleteNode] that returns, every
    stored edge has type smoothstep and the default style. *)
Theorem recomputing_resets_edge_edits
    (fuel : nat) (uuid i : string) (s : DiagramStore) :
  let plain (s' : DiagramStore) :=
    forall e, In e (edges s') ->
              type e = smoothstep /\ edgeStyle e = Some DEFAULT_EDGE_STYLE in
  plain (addRootNode uuid s) /\
  (getNodeById s i <> None ->
   plain (addChildNode uuid i s) /\ plain (addSiblingNode uuid i s)) /\
  (forall s', deleteNode fuel i s = Ok s' -> plain s').
Proof.
  intros plain.
  assert (Hd : forall s', edgesDerived s' -> plain s').
  { intros s' Hs e He. rewrite Hs in He. apply deriveEdges_In in He.
    destruct He as [n [p [_ [_ ->]]]]. split; reflexivity. }
  split; [apply Hd; reflexivity |]. split.
  - intros Hex. split; apply Hd.
    + now apply addChildNode_derives.
    + now apply addSiblingNode_derives.
  - intros s' H. apply Hd. eapply deleteNode_derives; eauto.
Qed.

(** X14: [deleteEdge] on an edge that exists removes no node: the ids stay
    as they were, every node whose id is the target of the edge becomes a
    root, the other nodes are untouched; the stored edges lose the ones
    with that id and no other, and the edge selection is cleared. *)
Theorem deleteEdge_detaches_the_target
    (i : string) (s : DiagramStore) (e : DiagramEdge) :
  getEdgeById s i = Some e ->
  let s' := deleteEdge i s in
  map id (nodes s') = map id (nodes s) /\
  (forall n, In n (nodes s') -> id n = target e -> parentId n = None) /\
  (forall n, In n (nodes s) -> id n <> target e -> In n (nodes s')) /\
  (forall e', In e' (edges s') <-> In e' (edges s) /\ edgeId e' <> i) /\
  selectedEdgeId s' = None /\
  selectedNodeId s' = selectedNodeId s /\
  selectedNodeIds s' = selectedNodeIds s.
Proof.
  intros Hget s'. subst s'. unfold deleteEdge. unfold getEdgeById in Hget.
  change (edges (saveToHistory s)) with (edges s).
  change (nodes (saveToHistory s)) with (nodes s).
  rewrite Hget.
  cbn [nodes edges selectedEdgeId selectedNodeId selectedNodeIds
       set_nodes set_edges set_selectedEdgeId].
  split; [| split; [| split; [| split; [| repeat split]]]].
  - rewrite map_map. apply map_ext. intros n.
    destruct (id n =? target e); reflexivity.
  - intros n Hn Hid. apply in_map_iff in Hn. destruct Hn as [m [<- Hm]].
    destruct (String.eqb_spec (id m) (target e)); [reflexivity |].
    contradiction.
  - intros n Hn Hid. apply in_map_iff. exists n. split; [| exact Hn].
    destruct (String.eqb_spec (id n) (target e)); [contradiction |].
    reflexivity.
  - intros e'. rewrite filter_In, negb_true_iff, String.eqb_neq. tauto.
Qed.

(** X15: [setNodePositions] and [moveSelectedNodes] write positions only:
    ids and parents of the nodes stay as they were, in the same order, and
    so do the derived edges; the stored edges, the selection, the history
    list and the cursor are not touched, so that a drag or a layout commits
    no snapshot. *)
Theorem position_writes_keep_structure
    (ps : list NodePosition) (dx dy : Q) (s s' : DiagramStore) :
  s' = setNodePositions ps s \/ s' = moveSelectedNodes dx dy s ->
  map id (nodes s') = map id (nodes s) /\
  map parentId (nodes s') = map parentId (nodes s) /\
  deriveEdges (nodes s') = deriveEdges (nodes s) /\
  edges s' = edges s /\
  history s' = history s /\
  historyIndex s' = historyIndex s /\
  selectedNodeId s' = selectedNodeId s /\
  selectedNodeIds s' = selectedNodeIds s /\
  selectedEdgeId s' = selectedEdgeId s.
Proof.
  assert (Hmap : forall f : DiagramNode -> DiagramNode,
            (forall n, id (f n) = id n /\ parentId (f n) = parentId n) ->
            map id (map f (nodes s)) = map id (nodes s) /\
            map parentId (map f (nodes s)) = map parentId (nodes s) /\
            deriveEdges (map f (nodes s)) = deriveEdges (nodes s)).
  { intros f Hf. rewrite !map_map. repeat split.
    - apply map_ext. intros n. apply Hf.
    - apply map_ext. intros n. apply Hf.
    - now apply deriveEdges_map_same. }
  intros [-> | ->].
  - unfold setNodePositions.
    cbn [nodes edges history historyIndex selectedNodeId selectedNodeIds
         selectedEdgeId set_nodes].
    destruct (Hmap (fun n =>
                match find (fun p => p_id p =? id n) ps with
                | Some pos => withPosition {| x := p_x pos; y := p_y pos |} n
                | None => n
                end)) as [H1 [H2 H3]].
    { intros n. destruct (find _ ps); split; reflexivity. }
    repeat split; assumption.
  - unfold moveSelectedNodes.
    destruct (List.length (selectedNodeIds s) =? 0)%nat;
      [repeat split |].
    cbn [nodes edges history historyIndex selectedNodeId selectedNodeIds
         selectedEdgeId set_nodes].
    destruct (Hmap (fun n =>
                if includes (selectedNodeIds s) (id n)
                then withPosition {| x := x (position n) + dx;
                                     y := y (position n) + dy |} n
                else n)) as [H1 [H2 H3]].
    { intros n. destruct (includes _ _); split; reflexivity. }
    repeat split; assumption.
Qed.

Lemma map_id_on {A} (f : A -> A) (l : list A) :
  (forall a, In a l -> f a = a) -> map f l = l.
Proof.
  induction l as [| a l IH]; simpl; intros H.
  - reflexivity.
  - rewrite H by now left. f_equal. apply IH. intros b Hb. apply H.
    now right.
Qed.

(** X16: [updateNode] and [updateEdge] on an id that no node, or no edge,
    carries change nothing of nodes, edges and selection, and still commit
    a snapshot: the store they leave is the one [saveToHistory] leaves. *)
Theorem updates_of_unknown_ids_only_commit
    (i : string) (un : NodeUpdates) (ue : EdgeUpdates) (s : DiagramStore) :
  ((forall n, In n (nodes s) -> id n <> i) ->
   updateNode i un s = saveToHistory s) /\
  ((forall e, In e (edges s) -> edgeId e <> i) ->
   updateEdge i ue s = saveToHistory s).
Proof.
  split; intros H.
  - unfold updateNode.
    change (nodes (saveToHistory s)) with (nodes s).
    rewrite map_id_on; [reflexivity |].
    intros n Hn. destruct (String.eqb_spec (id n) i); [| reflexivity].
    exfalso. eapply H; eauto.
  - unfold updateEdge.
    change (edges (saveToHistory s)) with (edges s).
    rewrite map_id_on; [reflexivity |].
    intros e He. destruct (String.eqb_spec (edgeId e) i); [| reflexivity].
    exfalso. eapply H; eauto.
Qed.

(** *** Export and import *)

(** X17: what [saveDiagram] returns, loaded into any store, gives back
    nodes, edges and name, with an empty history whose cursor is -1 and no
    single selection, so that [undo] and [redo] are then no-ops; the
    multiple selection and the edge selection of the store loaded into are
    kept.  The other way round, a diagram of schema version 1 that was
    loaded is saved as it was, up to the two timestamps. *)
Theorem save_then_load_round_trip
    (created updated : string) (s s0 : DiagramStore) (d : DiagramData) :
  let s' := loadDiagram (saveDiagram created updated s) s0 in
  (nodes s' = nodes s /\ edges s' = edges s /\
   diagramName s' = diagramName s /\
   history s' = [] /\ historyIndex s' = (-1)%Z /\
   selectedNodeId s' = None /\
   selectedNodeIds s' = selectedNodeIds s0 /\
   selectedEdgeId s' = selectedEdgeId s0 /\
   undo s' = Ok s' /\ redo s' = Ok s') /\
  (schemaVersion d = 1%Z ->
   saveDiagram (createdAt (settings d)) (updatedAt (settings d))
     (loadDiagram d s0) = d).
Proof.
  split.
  - repeat split.
  - intros Hv. destruct d as [v ns es [nm c u]]. simpl in Hv. subst v.
    reflexivity.
Qed.

End Facts.
End StoreMore.

(* ------------------------------------------------------------------ *)
(** ** Properties of the layout adapter *)

Module LayoutFacts.
Import Types Store Layout.

Section Facts.
Context `{ES : EdgeStyleDecl}.

Lemma find_own_position (mk : DiagramNode -> NodePosition)
    (ns : list DiagramNode) :
  (forall m, p_id (mk m) = id m) ->
  NoDup (map id ns) ->
  forall n, In n ns ->
    find (fun p => p_id p =? id n) (map mk ns) = Some (mk n).
Proof.
  intros Hmk. induction ns as [| a ns IH]; simpl; intros Hnd n Hin.
  - contradiction.
  - inversion Hnd as [| ? ? Hnotin Hnd']; subst. rewrite Hmk.
    destruct Hin as [-> | Hin].
    + now rewrite String.eqb_refl.
    + destruct (String.eqb_spec (id a) (id n)) as [Heq | _].
      * exfalso. apply Hnotin. rewrite Heq. now apply in_map.
      * now apply IH.
Qed.

Lemma map_ext_on {A B} (f g : A -> B) (l : list A) :
  (forall a, In a l -> f a = g a) -> map f l = map g l.
Proof.
  induction l as [| a l IH]; simpl; intros H.
  - reflexivity.
  - rewrite (H a) by now left. f_equal. apply IH. intros b Hb. apply H.
    now right.
Qed.

(** X18: under unique node ids, the auto-layout of the toolbar writes to
    every node the corner that goes with the centre the engine gave it: the
    centre minus half of the width and of the height, where a width or a
    height of 0 counts as the default 160 or 80.  Nothing else of the node
    changes, and neither do the stored edges, the history and the cursor. *)
Theorem auto_layout_writes_corners
    (engine : Graph -> string -> Q * Q) (s : DiagramStore) :
  NoDup (map id (nodes s)) ->
  let g := buildGraph (nodes s) DEFAULT_OPTIONS in
  let s' := handleAutoLayout engine s in
  nodes s'
  = map (fun n =>
           withPosition
             {| x := fst (engine g (id n)) - orNumber (width n) 160 / 2;
                y := snd (engine g (id n)) - orNumber (height n) 80 / 2 |}
             n)
      (nodes s) /\
  edges s' = edges s /\
  history s' = history s /\
  historyIndex s' = historyIndex s.
Proof.
  intros Hnd g s'. subst g s'. unfold handleAutoLayout.
  destruct (Nat.eqb_spec (List.length (nodes s)) 0) as [Hlen | Hlen].
  - apply length_zero_iff_nil in Hlen. rewrite Hlen. repeat split.
  - unfold setNodePositions.
    cbn [nodes edges history historyIndex set_nodes].
    split; [| repeat split].
    apply map_ext_on. intros n Hn. unfold applyDagreLayout.
    rewrite (find_own_position
               (fun node =>
                  {| p_id := id node;
                     p_x := fst (engine (buildGraph (nodes s) DEFAULT_OPTIONS)
                                   (id node))
                            - orNumber (width node)
                                (nodeWidth DEFAULT_OPTIONS) / 2;
                     p_y := snd (engine (buildGraph (nodes s) DEFAULT_OPTIONS)
                                   (id node))
                            - orNumber (height node)
                                (nodeHeight DEFAULT_OPTIONS) / 2 |})
               (nodes s) (fun m => eq_refl) Hnd n Hn).
    reflexivity.
Qed.

Lemma hasNode_In (ns : list (string * option (Q * Q))) (v : string) :
  hasNode ns v = true <-> In v (map fst ns).
Proof.
  unfold hasNode. rewrite existsb_exists, in_map_iff. split.
  - intros [kv [Hin Heq]]. apply String.eqb_eq in Heq. eauto.
  - intros [kv [Heq Hin]]. exists kv. split; [exact Hin |].
    now apply String.eqb_eq.
Qed.

Lemma hasNode_false (ns : list (string * option (Q * Q))) (v : string) :
  hasNode ns v = false <-> ~ In v (map fst ns).
Proof.
  rewrite <- hasNode_In. destruct (hasNode ns v); split; congruence.
Qed.

Lemma addNodes_fresh (opts : LayoutOptions) (l : list DiagramNode) :
  NoDup (map id l) ->
  forall acc,
    (forall n, In n l -> ~ In (id n) (map fst acc)) ->
    fold_left
      (fun acc node =>
         setNode acc (id node)
           (orNumber (width node) (nodeWidth opts),
            orNumber (height node) (nodeHeight opts)))
      l acc
    = acc ++ map (fun n => (id n,
                            Some (orNumber (width n) (nodeWidth opts),
                                  orNumber (height n) (nodeHeight opts))))
               l.
Proof.
  induction l as [| n l IH]; intros Hnd acc Hfresh; cbn [fold_left map].
  - now rewrite app_nil_r.
  - inversion Hnd as [| ? ? Hnotin Hnd']; subst.
    unfold setNode at 2.
    assert (E : hasNode acc (id n) = false).
    { apply hasNode_false. apply Hfresh. now left. }
    rewrite E, IH; [now rewrite <- app_assoc | exact Hnd' |].
    intros m Hm Hin. rewrite map_app, in_app_iff in Hin.
    destruct Hin as [Hin | [Heq | []]].
    + apply (Hfresh m); [now right | exact Hin].
    + apply Hnotin. cbn [fst] in Heq. rewrite Heq. now apply in_map.
Qed.

Lemma hasEdge_false (es : list (string * string)) (v w : string) :
  (forall e, In e es -> snd e <> w) -> hasEdge es v w = false.
Proof.
  intros H. unfold hasEdge. apply not_true_is_false. intros E.
  apply existsb_exists in E. destruct E as [e [Hin He]].
  apply andb_true_iff in He. destruct He as [_ He].
  apply String.eqb_eq in He. exact (H e Hin He).
Qed.

Lemma addEdges_known (N : list (string * option (Q * Q)))
    (l : list DiagramNode) :
  NoDup (map id l) ->
  (forall n, In n l -> In (id n) (map fst N)) ->
  (forall n p, In n l -> parentId n = Some p ->
               p <> "" /\ In p (map fst N)) ->
  forall E,
    (forall e n, In e E -> In n l -> snd e <> id n) ->
    addEdges l (N, E)
    = (N, E ++ flat_map (fun n => match parentId n with
                                  | Some p => [(p, id n)]
                                  | None => []
                                  end) l).
Proof.
  unfold addEdges.
  induction l as [| n l IH]; intros Hnd Hkeys Hpar E Hdisj;
    cbn [fold_left flat_map].
  - now rewrite app_nil_r.
  - inversion Hnd as [| ? ? Hnotin Hnd']; subst.
    assert (Hkeys' : forall m, In m l -> In (id m) (map fst N))
      by (intros m Hm; apply Hkeys; now right).
    assert (Hpar' : forall m p, In m l -> parentId m = Some p ->
                                p <> "" /\ In p (map fst N))
      by (intros m p Hm; apply Hpar; now right).
    destruct (parentId n) as [p |] eqn:Hp.
    + destruct (Hpar n p (or_introl eq_refl) Hp) as [Hne Hin].
      unfold truthy. destruct (String.eqb_spec p ""); [contradiction |].
      cbn [negb]. unfold setEdge, ensureNode. cbn [fst snd].
      rewrite (proj2 (hasNode_In N p) Hin).
      rewrite (proj2 (hasNode_In N (id n)) (Hkeys n (or_introl eq_refl))).
      rewrite hasEdge_false
        by (intros e He; apply (Hdisj e n He); now left).
      rewrite IH; try assumption.
      * now rewrite <- app_assoc.
      * intros e m He Hm. apply in_app_iff in He.
        destruct He as [He | [<- | []]].
        -- apply (Hdisj e m He). now right.
        -- cbn [snd]. intros Heq. apply Hnotin. rewrite Heq.
           now apply in_map.
    + cbn [truthy]. rewrite IH; try assumption.
      * reflexivity.
      * intros e m He Hm. apply (Hdisj e m He). now right.
Qed.

Lemma derived_pairs (ns : list DiagramNode) :
  flat_map (fun n => match parentId n with
                     | Some p => [(p, id n)]
                     | None => []
                     end) ns
  = map (fun e => (source e, target e)) (deriveEdges ns).
Proof.
  unfold deriveEdges. induction ns as [| n ns IH]; cbn [flat_map].
  - reflexivity.
  - rewrite map_app, <- IH. destruct (parentId n); reflexivity.
Qed.

(** X19: when the node ids are unique and every parent id is the id of a
    node of the diagram, and not the empty string, the graph handed to the
    engine has exactly one node for each node of the diagram, in the same
    order and with its size (0 replaced by the default), and exactly the
    parent links the store derives its edges from, as pairs of source and
    target in the same order. *)
Theorem layout_graph_has_the_derived_edges
    (ns : list DiagramNode) (opts : LayoutOptions) :
  NoDup (map id ns) ->
  (forall n p, In n ns -> parentId n = Some p ->
               p <> "" /\ In p (map id ns)) ->
  graphNodes (buildGraph ns opts)
  = map (fun n => (id n, Some (orNumber (width n) (nodeWidth opts),
                               orNumber (height n) (nodeHeight opts)))) ns /\
  graphEdges (buildGraph ns opts)
  = map (fun e => (source e, target e)) (deriveEdges ns).
Proof.
  intros Hnd Hpar. unfold buildGraph, addNodes. cbn [graphNodes graphEdges].
  rewrite (addNodes_fresh opts ns Hnd []) by (intros n _ []).
  cbn [app].
  set (N := map (fun n => (id n, Some (orNumber (width n) (nodeWidth opts),
                                        orNumber (height n) (nodeHeight opts))))
              ns).
  assert (Hkeys : map fst N = map id ns).
  { unfold N. rewrite map_map. reflexivity. }
  rewrite (addEdges_known N ns Hnd).
  - cbn [fst snd app]. split; [reflexivity | apply derived_pairs].
  - intros n Hn. rewrite Hkeys. apply (in_map id ns n Hn).
  - intros n p Hn Hp. rewrite Hkeys. exact (Hpar n p Hn Hp).
  - intros e n [].
Qed.

End Facts.
End LayoutFacts.

(* ------------------------------------------------------------------ *)
(** ** More properties of the routers *)

Module RouterMore.
Import PrimFloat Flow.
Local Open Scope float_scope.

Lemma smart_loopY_spec (offs : list float) (x1 x2 y : float)
    (nodes : list SmartEdge.NodeBounds) (up down : bool) :
  let r := SmartEdge.findClearY_loop offs x1 x2 y nodes up down in
  (SmartEdge.hLineIntersectsNodes r x1 x2 nodes = false /\
   exists off, In off offs /\
     ((up = true /\ r = y - off) \/ (down = true /\ r = y + off))) \/
  (r = y /\
   forall off, In off offs ->
     (up = true ->
      SmartEdge.hLineIntersectsNodes (y - off) x1 x2 nodes = true) /\
     (down = true ->
      SmartEdge.hLineIntersectsNodes (y + off) x1 x2 nodes = true)).
Proof.
  induction offs as [| off offs IH]; cbn [SmartEdge.findClearY_loop].
  - right. split; [reflexivity | intros off []].
  - destruct up, down; cbn [andb];
      destruct (SmartEdge.hLineIntersectsNodes (y - off) x1 x2 nodes) eqn:Eu;
      destruct (SmartEdge.hLineIntersectsNodes (y + off) x1 x2 nodes) eqn:Ed;
      cbn [negb];
      try (left; split; [assumption |];
           exists off; split; [now left | tauto]);
      (destruct IH as [[Hc [o [Ho Hr]]] | [Hr Hall]];
       [ left; split; [exact Hc |]; exists o; split; [now right | exact Hr]
       | right; split; [exact Hr |];
         intros o [<- | Ho];
         [split; intros; congruence | now apply Hall] ]).
Qed.

Lemma smart_loopX_spec (offs : list float) (y1 y2 x : float)
    (nodes : list SmartEdge.NodeBounds) :
  let r := SmartEdge.findClearX_loop offs y1 y2 x nodes in
  (SmartEdge.vLineIntersectsNodes r y1 y2 nodes = false /\
   exists off, In off offs /\ (r = x - off \/ r = x + off)) \/
  (r = x /\
   forall off, In off offs ->
     SmartEdge.vLineIntersectsNodes (x - off) y1 y2 nodes = true /\
     SmartEdge.vLineIntersectsNodes (x + off) y1 y2 nodes = true).
Proof.
  induction offs as [| off offs IH]; cbn [SmartEdge.findClearX_loop].
  - right. split; [reflexivity | intros off []].
  - destruct (SmartEdge.vLineIntersectsNodes (x - off) y1 y2 nodes) eqn:El;
      destruct (SmartEdge.vLineIntersectsNodes (x + off) y1 y2 nodes) eqn:Er;
      cbn [negb];
      try (left; split; [assumption |];
           exists off; split; [now left | tauto]).
    destruct IH as [[Hc [o [Ho Hr]]] | [Hr Hall]].
    + left. split; [exact Hc |]. exists o. split; [now right | exact Hr].
    + right. split; [exact Hr |]. intros o [<- | Ho]; [now split |].
      now apply Hall.
Qed.

(** X20: the two searches of [generateSmartPath] are best effort.
    [findClearY] returns a y at which the horizontal segment meets no
    obstacle, or, when the preferred y and every probe within 390 on the
    sides searched are blocked, the preferred y itself; [findClearX] does
    the same for the vertical segment, probing left and right. *)
Theorem smart_searches_return_clear_or_preferred
    (a b p : float) (nodes : list SmartEdge.NodeBounds) (up down : bool) :
  (let r := SmartEdge.findClearY a b p nodes up down in
   SmartEdge.hLineIntersectsNodes r a b nodes = false \/
   (r = p /\
    SmartEdge.hLineIntersectsNodes p a b nodes = true /\
    forall off, In off (offsets 15 400) ->
      (up = true ->
       SmartEdge.hLineIntersectsNodes (p - off) a b nodes = true) /\
      (down = true ->
       SmartEdge.hLineIntersectsNodes (p + off) a b nodes = true))) /\
  (let r := SmartEdge.findClearX a b p nodes in
   SmartEdge.vLineIntersectsNodes r a b nodes = false \/
   (r = p /\
    SmartEdge.vLineIntersectsNodes p a b nodes = true /\
    forall off, In off (offsets 15 400) ->
      SmartEdge.vLineIntersectsNodes (p - off) a b nodes = true /\
      SmartEdge.vLineIntersectsNodes (p + off) a b nodes = true)).
Proof.
  split.
  - unfold SmartEdge.findClearY.
    destruct (SmartEdge.hLineIntersectsNodes p a b nodes) eqn:E; cbn [negb].
    + destruct (smart_loopY_spec (offsets 15 400) a b p nodes up down)
        as [[Hc _] | [Hr Hall]]; [now left | right; auto].
    + now left.
  - unfold SmartEdge.findClearX.
    destruct (SmartEdge.vLineIntersectsNodes p a b nodes) eqn:E; cbn [negb].
    + destruct (smart_loopX_spec (offsets 15 400) a b p nodes)
        as [[Hc _] | [Hr Hall]]; [now left | right; auto].
    + now left.
Qed.

(** X21: the search for the bar of [generateSmartPath] goes one way only,
    away from the source.  For a target below the source the bar is the
    first choice [midY] or [midY] plus one of the offsets of the loop (15,
    30, ... 390, added in doubles), never [midY] minus one; for a target
    that is not below it is [midY] or [midY] minus one of them, never
    plus. *)
Theorem smart_bar_is_searched_away_from_the_source
    (sourceX sourceY targetX targetY : float)
    (nodes : list SmartEdge.NodeBounds) :
  let bar := SmartEdge.clearMidY sourceX sourceY targetX targetY nodes in
  let first := SmartEdge.midY sourceY targetY in
  (gt targetY sourceY = true ->
   bar = first \/
   exists off, In off (offsets 15 400) /\ bar = first + off) /\
  (gt targetY sourceY = false ->
   bar = first \/
   exists off, In off (offsets 15 400) /\ bar = first - off).
Proof.
  intros bar first. subst bar first. unfold SmartEdge.clearMidY.
  split; intros Hdir; rewrite Hdir; cbn [negb];
    unfold SmartEdge.findClearY;
    destruct (SmartEdge.hLineIntersectsNodes _ _ _ nodes);
    cbn [negb]; try (now left).
  - destruct (smart_loopY_spec (offsets 15 400)
                (min sourceX targetX) (max sourceX targetX)
                (SmartEdge.midY sourceY targetY) nodes false true)
      as [[_ [off [Hoff [[Hf _] | [_ Hr]]]]] | [Hr _]].
    + discriminate.
    + right. exists off. auto.
    + now left.
  - destruct (smart_loopY_spec (offsets 15 400)
                (min sourceX targetX) (max sourceX targetX)
                (SmartEdge.midY sourceY targetY) nodes true false)
      as [[_ [off [Hoff [[_ Hr] | [Hf _]]]]] | [Hr _]].
    + right. exists off. auto.
    + discriminate.
    + now left.
Qed.

Lemma org_loop_spec (offs : list float) (x1 x2 y : float)
    (nodes : list OrgChartEdge.NodeBounds) (preferUp : bool) :
  let r := OrgChartEdge.findClearY_loop offs x1 x2 y nodes preferUp in
  (OrgChartEdge.hLineIntersectsNodes r x1 x2 nodes = false /\
   exists off, In off offs /\ (r = y - off \/ r = y + off)) \/
  (r = y /\
   forall off, In off offs ->
     OrgChartEdge.hLineIntersectsNodes (y - off) x1 x2 nodes = true /\
     OrgChartEdge.hLineIntersectsNodes (y + off) x1 x2 nodes = true).
Proof.
  induction offs as [| off offs IH]; cbn [OrgChartEdge.findClearY_loop].
  - right. split; [reflexivity | intros off []].
  - destruct preferUp;
      destruct (OrgChartEdge.hLineIntersectsNodes (y - off) x1 x2 nodes)
        eqn:Eu;
      destruct (OrgChartEdge.hLineIntersectsNodes (y + off) x1 x2 nodes)
        eqn:Ed;
      cbn [negb];
      try (left; split; [assumption |];
           exists off; split; [now left | tauto]);
      (destruct IH as [[Hc [o [Ho Hr]]] | [Hr Hall]];
       [ left; split; [exact Hc |]; exists o; split; [now right | exact Hr]
       | right; split; [exact Hr |];
         intros o [<- | Ho]; [now split | now apply Hall] ]).
Qed.

(** X22: the search of [generateOrgChartPath] looks on both sides of the
    first bar, whatever the direction of the edge and the side preferred.
    It returns the first y, or the first y minus or plus one of the offsets
    of the loop (10, 20, ... 300, in doubles); what it returns meets no
    obstacle, unless the first y and every probe on both sides are blocked,
    and then it is the first y. *)
Theorem orgchart_search_returns_clear_or_start
    (a b p : float) (nodes : list OrgChartEdge.NodeBounds)
    (preferUp : bool) :
  let r := OrgChartEdge.findClearY a b p nodes preferUp in
  (r = p \/
   exists off, In off (offsets 10 300) /\ (r = p - off \/ r = p + off)) /\
  (OrgChartEdge.hLineIntersectsNodes r a b nodes = false \/
   (r = p /\
    OrgChartEdge.hLineIntersectsNodes p a b nodes = true /\
    forall off, In off (offsets 10 300) ->
      OrgChartEdge.hLineIntersectsNodes (p - off) a b nodes = true /\
      OrgChartEdge.hLineIntersectsNodes (p + off) a b nodes = true)).
Proof.
  unfold OrgChartEdge.findClearY.
  destruct (OrgChartEdge.hLineIntersectsNodes p a b nodes) eqn:E;
    cbn [negb].
  - destruct (org_loop_spec (offsets 10 300) a b p nodes preferUp)
      as [[Hc [off [Hoff Hr]]] | [Hr Hall]].
    + split; [right; exists off; auto | now left].
    + split; [now left | right; auto].
  - split; now left.
Qed.

(** X23: both routers always return a path from the source anchor to the
    target anchor: the first command moves to the source and the last one
    draws a line to the target, whatever the obstacles and whether or not
    the searches found room. *)
Theorem paths_run_from_source_to_target
    (sourceX sourceY targetX targetY : float)
    (smartNodes : list SmartEdge.NodeBounds)
    (orgNodes : list OrgChartEdge.NodeBounds)
    (spacing borderRadius : float) :
  let smart :=
    SmartEdge.generateSmartPath sourceX sourceY targetX targetY
      smartNodes borderRadius in
  let org :=
    OrgChartEdge.generateOrgChartPath sourceX sourceY targetX targetY
      orgNodes spacing borderRadius in
  (hd_error smart = Some (MoveTo sourceX sourceY) /\
   last smart (MoveTo 0 0) = LineTo targetX targetY) /\
  (hd_error org = Some (MoveTo sourceX sourceY) /\
   last org (MoveTo 0 0) = LineTo targetX targetY).
Proof.
  intros smart org. subst smart org. split.
  - unfold SmartEdge.generateSmartPath.
    destruct (lt (abs (sourceX - targetX)) 10); [split; reflexivity |].
    cbv zeta.
    destruct (negb (SmartEdge.vLineIntersectsNodes sourceX sourceY _ _)
              && negb (SmartEdge.vLineIntersectsNodes targetX _ targetY _));
      [split; reflexivity |].
    split; [reflexivity |].
    rewrite !app_assoc. apply last_last.
  - unfold OrgChartEdge.generateOrgChartPath.
    destruct (lt (abs (sourceX - targetX)) 3); [split; reflexivity |].
    cbv zeta. destruct (gt targetY sourceY); split; reflexivity.
Qed.

End RouterMore.

(* ------------------------------------------------------------------ *)
(** ** The further properties on concrete runs *)

Module MoreRuns.
Import Types Store Layout Examples.

(** X1 at work: the edit after three edits and one undo. *)
Lemma commit_snapshot_witness :
  commits (AddRootNode "d") afterUndo = true /\
  at_index (history (storeOf (step 0 (AddRootNode "d") afterUndo)))
    (historyIndex (storeOf (step 0 (AddRootNode "d") afterUndo)))
  = Some (snapshot afterUndo).
Proof.
  split; [reflexivity |].
  exact (StoreMore.commit_stores_state_before_edit
           0%nat (AddRootNode "d") afterUndo eq_refl).
Defined.

Lemma threeRoots_cursor :
  (-1 <= historyIndex threeRoots
   < Z.of_nat (List.length (history threeRoots)))%Z.
Proof. split; vm_compute; [discriminate | reflexivity]. Qed.

Lemma twoUndone_cursor :
  (-1 <= historyIndex twoUndone
   < Z.of_nat (List.length (history twoUndone)))%Z.
Proof. split; vm_compute; [discriminate | reflexivity]. Qed.

(** X3 at work: two undos after three edits land on the first snapshot,
    the empty diagram. *)
Lemma undo_twice_witness :
  historyIndex (undoTimes 2 threeRoots) = 0%Z /\
  nodes (undoTimes 2 threeRoots) = [].
Proof.
  destruct (StoreMore.undo_k_times_lands_k_snapshots_back 2 threeRoots
              threeRoots_cursor) as [Hi [_ Hs]].
  - lia.
  - vm_compute. discriminate.
  - split; [exact Hi | reflexivity].
Defined.

(** X4 at work: two redos from there land on the third snapshot, the
    diagram with the first two roots. *)
Lemma redo_twice_witness :
  historyIndex (redoTimes 2 twoUndone) = 2%Z /\
  map id (nodes (redoTimes 2 twoUndone)) = ["a"; "b"].
Proof.
  destruct (StoreMore.redo_k_times_lands_k_snapshots_forward 2 twoUndone
              twoUndone_cursor) as [Hi [_ Hs]].
  - lia.
  - vm_compute. discriminate.
  - split; [exact Hi | reflexivity].
Defined.

(** X5 at work: undo then redo after three edits leaves two roots, where
    the store had three. *)
Lemma undo_redo_witness :
  map id (nodes threeRoots) = ["a"; "b"; "c"] /\
  exists s1 s2,
    undo threeRoots = Ok s1 /\ redo s1 = Ok s2 /\
    historyIndex s2 = historyIndex threeRoots /\
    map id (nodes s2) = ["a"; "b"].
Proof.
  split; [reflexivity |].
  destruct (StoreMore.undo_then_redo_restores_cursor_snapshot threeRoots
              threeRoots_cursor)
    as [s1 [s2 [Hu [Hr [Hi [_ [Hs _]]]]]]].
  - vm_compute. reflexivity.
  - exists s1, s2. repeat split; try assumption.
    assert (Hat : at_index (history threeRoots) (historyIndex threeRoots)
                  = Some (snapshot twoRoots)) by (vm_compute; reflexivity).
    rewrite Hat in Hs. apply (f_equal (option_map h_nodes)) in Hs.
    cbn [option_map snapshot h_nodes] in Hs. injection Hs as Hn.
    rewrite <- Hn. vm_compute. reflexivity.
Defined.

Lemma smallTree_ranked : rankedBy depth (nodes smallTree).
Proof.
  intros n p Hn Hp. vm_compute in Hn.
  repeat destruct Hn as [<- | Hn]; try contradiction;
    vm_compute in Hp; try discriminate;
    injection Hp as <-; vm_compute; lia.
Qed.

Lemma smallTree_height : (maxRank depth (nodes smallTree) < 3)%nat.
Proof. vm_compute. lia. Qed.

(** X9 at work on the three-level tree: deleting "c1" takes its child "g"
    with it. *)
Lemma deleteNode_subtree_witness :
  exists s',
    deleteNode 3 "c1" smallTree = Ok s' /\
    map id (nodes s') = ["r"; "c2"].
Proof.
  destruct (StoreMore.deleteNode_removes_exactly_the_subtree
              depth 3 "c1" smallTree smallTree_ranked smallTree_height)
    as [s' [removed [Hdel _]]].
  exists s'. split; [exact Hdel |].
  vm_compute in Hdel. injection Hdel as <-. reflexivity.
Defined.

(** X10 at work on the same tree, where "g" and "c2" are selected: only
    the root stays. *)
Lemma deleteSelected_witness :
  selectedNodeIds smallTree = ["g"; "c2"] /\
  exists s',
    deleteSelectedNodes 3 smallTree = Ok s' /\
    map id (nodes s') = ["r"; "c1"] /\
    selectedNodeIds s' = [].
Proof.
  split; [reflexivity |].
  destruct (proj2 (StoreMore.deleteSelectedNodes_removes_the_selected_subtrees
                     depth 3 smallTree))
    as [s' [removed [Hdel _]]].
  - vm_compute. discriminate.
  - exact smallTree_ranked.
  - exact smallTree_height.
  - exists s'. split; [exact Hdel |].
    vm_compute in Hdel. injection Hdel as <-. split; reflexivity.
Defined.

Lemma cyclic_has_cycle : onCycle (nodes cyclic) "a".
Proof.
  unfold onCycle.
  exists (nth 1 (nodes cyclic) unnamedNode).
  split; [vm_compute; tauto |]. split; [reflexivity |].
  apply (reach_child _ _ (nth 0 (nodes cyclic) unnamedNode));
    [vm_compute; tauto | reflexivity | constructor].
Qed.

(** X11 at work: "a" and "b" are each other's parent; [deleteNode] on "a"
    with a stack of 1000 frames raises. *)
Lemma deleteNode_cycle_witness :
  map (fun n => (id n, parentId n)) (nodes cyclic)
  = [("a", Some "b"); ("b", Some "a")] /\
  deleteNode 1000 "a" cyclic = Raise RangeError (saveToHistory cyclic).
Proof.
  split; [reflexivity |].
  exact (proj1 (StoreMore.deleteNode_on_a_cycle_exhausts_the_stack
                  1000 "a" cyclic cyclic_has_cycle)).
Defined.

(** X14 at work: detaching the edge of a parent and its child leaves two
    roots and no edge. *)
Lemma deleteEdge_witness :
  exists e,
    getEdgeById parentAndChild "edge-a-b" = Some e /\
    map id (nodes (deleteEdge "edge-a-b" parentAndChild)) = ["a"; "b"] /\
    map parentId (nodes (deleteEdge "edge-a-b" parentAndChild))
    = [None; None].
Proof.
  eexists. split; [reflexivity |].
  destruct (StoreMore.deleteEdge_detaches_the_target
              "edge-a-b" parentAndChild _ eq_refl) as [Hids _].
  split; [exact Hids | reflexivity].
Defined.

(** X15 at work: moving the selected child of a parent by (10, 20). *)
Lemma position_write_witness :
  let s' := moveSelectedNodes 10 20
              (setSelectedNodes ["b"] parentAndChild) in
  map id (nodes s') = ["a"; "b"] /\ history s' = history parentAndChild.
Proof.
  intros s'.
  destruct (StoreMore.position_writes_keep_structure
              [] 10 20 (setSelectedNodes ["b"] parentAndChild) s'
              (or_intror eq_refl)) as [Hids [_ [_ [_ [Hh _]]]]].
  split; [exact Hids | exact Hh].
Defined.

Lemma parentAndChild_ids : NoDup (map id (nodes parentAndChild)).
Proof.
  vm_compute. constructor; [intros [H | []]; discriminate H |].
  constructor; [intros [] | constructor].
Qed.

(** X18 at work: with the engine that puts "a" at (130, 90) and "b" at
    (330, 250), the two nodes of 160 by 80 get the corners (50, 50) and
    (250, 210). *)
Lemma auto_layout_witness :
  map (fun n => (Qred (x (position n)), Qred (y (position n))))
    (nodes (handleAutoLayout twoSpots parentAndChild))
  = [(50, 50); (250, 210)].
Proof.
  destruct (LayoutFacts.auto_layout_writes_corners twoSpots parentAndChild
              parentAndChild_ids) as [Hn _].
  rewrite Hn. reflexivity.
Defined.

(** X19 at work on the same parent and child: the graph has the nodes "a"
    and "b", each 160 by 80, and the one link from "a" to "b". *)
Lemma layout_graph_witness :
  graphNodes (buildGraph (nodes parentAndChild) DEFAULT_OPTIONS)
  = [("a", Some (160, 80)); ("b", Some (160, 80))] /\
  graphEdges (buildGraph (nodes parentAndChild) DEFAULT_OPTIONS)
  = [("a", "b")].
Proof.
  assert (Hpar : forall n p,
            In n (nodes parentAndChild) -> parentId n = Some p ->
            p <> "" /\ In p (map id (nodes parentAndChild))).
  { intros n p Hin Hp. vm_compute in Hin.
    destruct Hin as [<- | [<- | []]]; vm_compute in Hp;
      [discriminate |].
    injection Hp as <-. split; [discriminate | now left]. }
  destruct (LayoutFacts.layout_graph_has_the_derived_edges
              (nodes parentAndChild) DEFAULT_OPTIONS
              parentAndChild_ids Hpar) as [Hn He].
  rewrite Hn, He. split; reflexivity.
Defined.

End MoreRuns.
